(** * thestral: a SOCKS5 relay

    A shallow embedding of the transport, packet and upstream layers of
    thestral, and the properties of them that its specification states.

    The C++ code is written in continuation-passing style over Boost.Asio:
    every [StartXxx] function takes the callback to run on completion.  The
    embedding keeps that shape.  An asynchronous function is a tree of
    operations ([Op]) whose nodes are the I/O requests it issues and whose
    branches are the completion handlers (the lambdas of the source); the
    reactor together with the rest of the world is a script of completions
    against which a tree is run. *)

From Stdlib Require Import ZArith Lia String.
From Stdlib.Strings Require Import Byte.
From stdpp Require Import base list vector option.

(** ** include/common.h *)

Module Common.

#[global] Instance byte_eq_decision : EqDecision byte := Byte.byte_eq_dec.

(** [enum class AddressType : uint8_t].  The code casts arbitrary bytes to
    the enumeration ([static_cast<AddressType>(0xff)]), so a value of the
    type is any byte. *)
Definition AddressType := byte.
Definition kIPv4 : AddressType := x01.
Definition kDomainName : AddressType := x03.
Definition kIPv6 : AddressType := x04.

(** [struct Address]; [host] is a [std::string] used as a byte buffer and
    [port] a [uint16_t]. *)
Record Address := {
  type : AddressType;
  host : list byte;
  port : Z;
}.

(** The default member initialisers: [kIPv4], [host{0, 0, 0, 0}], port 0. *)
Definition Address_default : Address :=
  {| type := kIPv4; host := [x00; x00; x00; x00]; port := 0 |}.

(** [bool operator==(const Address&)] *)
Definition Address_eqb (a b : Address) : bool :=
  Byte.eqb (type a) (type b)
  && bool_decide (host a = host b)
  && (port a =? port b)%Z.

(** What [endpoint.address()] can answer in [FromAsioEndpoint], which is a
    template over the endpoint type: a version 4 address with its
    [bytes_type] ([std::array<unsigned char, 4>]), a version 6 address with
    its 16 bytes and its scope id, or an address that answers [false] to
    both [is_v4()] and [is_v6()]. *)
Inductive asio_address :=
| address_v4 (bytes : vec byte 4)
| address_v6 (bytes : vec byte 16) (scope_id : Z)
| address_none.

Record endpoint := {
  ep_address : asio_address;
  ep_port : Z;
}.

(** [Address::FromAsioEndpoint].  The [if (is_v4()) ... else if (is_v6())
    ... else] chain with its [to_v4().to_bytes()] / [to_v6().to_bytes()]
    is the match on the address; [address] starts default-constructed and
    the branches assign to its fields.  [to_bytes()] leaves the scope id of
    a version 6 address out. *)
Definition FromAsioEndpoint (e : endpoint) : Address :=
  let address := Address_default in
  match ep_address e with
  | address_v4 asio_addr_bytes =>
      {| type := kIPv4;
         host := vec_to_list asio_addr_bytes;
         port := ep_port e |}
  | address_v6 asio_addr_bytes _ =>
      {| type := kIPv6;
         host := vec_to_list asio_addr_bytes;
         port := ep_port e |}
  | address_none =>
      {| type := xff; host := host address; port := port address |}
  end.

(** The data-model invariant: the length of [host] matches [type]. *)
Definition host_matches_type (a : Address) : Prop :=
  (type a = kIPv4 -> length (host a) = 4) /\
  (type a = kIPv6 -> length (host a) = 16) /\
  (type a = kDomainName -> 1 <= length (host a) <= 255).

(** The same as a test. *)
Definition host_matches_typeb (a : Address) : bool :=
  if Byte.eqb (type a) kIPv4 then length (host a) =? 4
  else if Byte.eqb (type a) kIPv6 then length (host a) =? 16
  else if Byte.eqb (type a) kDomainName
       then (1 <=? length (host a)) && (length (host a) <=? 255)
  else true.

End Common.
Export Common.

(** ** include/base.h *)

Module Base.

(** [boost::system::error_code]: an integer and the category it is to be
    read in.  Converted to [bool] it is true when the integer is not 0. *)
Inductive error_category :=
| system_category
| misc_category
| socks_category.

Record ec_type := {
  ec_value : Z;
  ec_category : error_category;
}.

(** [ec_type()] *)
Definition no_error : ec_type :=
  {| ec_value := 0; ec_category := system_category |}.

(** [if (ec)] *)
Definition failed (ec : ec_type) : bool := negb (ec_value ec =? 0)%Z.

(** [boost::asio::error::bad_descriptor] is [EBADF] and
    [boost::asio::error::eof] is 2 in the misc category. *)
Definition bad_descriptor : ec_type :=
  {| ec_value := 9; ec_category := system_category |}.
Definition eof : ec_type :=
  {| ec_value := 2; ec_category := misc_category |}.

(** The transports the upstream code handles through
    [std::shared_ptr<TransportBase>]: a transport made by a transport
    factory, known by its id and the local endpoint of its socket, or the
    wrapper [impl::SocksTransportWrapper(transport, address)] that the
    SOCKS upstream builds around one. *)
Inductive TransportBase :=
| Established (id : Z) (local_endpoint : endpoint)
| SocksTransportWrapper (transport : TransportBase) (address : Address).

Inductive Level := Debug | Info | Warn | Error.

(** An asynchronous computation.  [Call e] is the invocation of a callback
    of the caller, of which nothing is known but its arguments [e];
    [Undefined] is a point from which C++ gives the program no meaning. *)
Inductive Op (E : Type) : Type :=
| Stop
| Log (level : Level) (message : string) (k : Op E)
| Call (e : E) (k : Op E)
| StartRead (transport : TransportBase) (n : nat)
            (callback : ec_type -> nat -> list byte -> Op E)
| StartWrite (transport : TransportBase) (data : list byte)
             (callback : ec_type -> nat -> Op E)
| StartClose (transport : TransportBase) (k : Op E)
| AsyncResolve (host : list byte) (service : Z)
               (callback : ec_type -> list endpoint -> Op E)
| StartConnect (e : endpoint)
               (callback : ec_type -> option TransportBase -> Op E)
| Undefined.
Arguments Stop {E}.
Arguments Undefined {E}.
Arguments Log {E}.
Arguments Call {E}.
Arguments StartRead {E}.
Arguments StartWrite {E}.
Arguments StartClose {E}.
Arguments AsyncResolve {E}.
Arguments StartConnect {E}.

(** What the world answers to an operation. *)
Inductive completion :=
| Transferred (ec : ec_type) (data : list byte)
| Resolved (ec : ec_type) (results : list endpoint)
| Connected (ec : ec_type) (transport : option TransportBase).

(** What an observer sees of a run. *)
Inductive io_event :=
| EvRead (transport : TransportBase) (n : nat)
| EvWrite (transport : TransportBase) (data : list byte)
| EvClose (transport : TransportBase)
| EvResolve (host : list byte) (service : Z)
| EvConnect (e : endpoint)
| EvUndefined.

Inductive event (E : Type) :=
| IO (e : io_event)
| Called (e : E).
Arguments IO {E}.
Arguments Called {E}.

(** A read of [n] bytes goes to a zero-initialised buffer of [n] bytes
    ([std::make_shared<std::array<char, N>>()]); [data] is what arrived. *)
Definition fill (n : nat) (data : list byte) : list byte :=
  take n (data ++ replicate n x00).

(** Runs a computation against a script of completions, the answers of the
    world in the order in which they arrive.  An operation for which the
    script has no answer of its kind stays pending: its handler never
    runs.  [StartClose()] is the overload with the empty callback; logging
    goes to a sink that is not observed. *)
Fixpoint run {E} (p : Op E) (script : list completion) : list (event E) :=
  match p with
  | Stop => []
  | Undefined => [IO EvUndefined]
  | Log _ _ k => run k script
  | Call e k => Called e :: run k script
  | StartClose t k => IO (EvClose t) :: run k script
  | StartRead t n callback =>
      IO (EvRead t n) ::
      match script with
      | Transferred ec data :: script' =>
          run (callback ec (length (take n data)) (fill n data)) script'
      | _ => []
      end
  | StartWrite t data callback =>
      IO (EvWrite t data) ::
      match script with
      | Transferred ec sent :: script' =>
          run (callback ec (length sent)) script'
      | _ => []
      end
  | AsyncResolve h s callback =>
      IO (EvResolve h s) ::
      match script with
      | Resolved ec results :: script' => run (callback ec results) script'
      | _ => []
      end
  | StartConnect e callback =>
      IO (EvConnect e) ::
      match script with
      | Connected ec t :: script' => run (callback ec t) script'
      | _ => []
      end
  end.

(** [class PacketBase] with the convention of its comment: a packet type
    has a default constructor, [Validate], [ToString] and a static
    [StartCreateFrom(transport, callback)]. *)
Class Packet (P : Type) := {
  New : P;
  Validate : P -> bool;
  ToString : P -> list byte;
  StartCreateFrom : forall {E : Type},
    TransportBase -> (ec_type -> P -> Op E) -> Op E;
}.

(** Modelled from the spec: [PacketBase::StartWriteTo], whose body is in
    base.cc, not among the sources.  A packet is written to the transport as
    its byte representation; the comment of the declaration in base.h says
    the same: the default implementation writes the bytes returned by
    [ToString()]. *)
Definition StartWriteTo {P} `{Packet P} {E} (packet : P)
    (transport : TransportBase) (callback : ec_type -> nat -> Op E) : Op E :=
  StartWrite transport (ToString packet) callback.

(** [template <typename Header, typename Body> struct PacketWithHeader] *)
Record PacketWithHeader (Header Body : Type) := {
  header : Header;
  body : Body;
}.
Arguments header {Header Body}.
Arguments body {Header Body}.

Section PacketWithHeader.
Context {Header Body : Type} `{Packet Header} `{Packet Body}.

Definition PacketWithHeader_New : PacketWithHeader Header Body :=
  {| header := New; body := New |}.

Definition PacketWithHeader_Validate
    (p : PacketWithHeader Header Body) : bool :=
  Validate (header p) && Validate (body p).

Definition PacketWithHeader_StartCreateFrom {E}
    (transport : TransportBase)
    (callback : ec_type -> PacketWithHeader Header Body -> Op E) : Op E :=
  StartCreateFrom (P := Header) transport (fun ec header =>
    if failed ec then
      callback ec PacketWithHeader_New
    else
      StartCreateFrom (P := Body) transport (fun ec body =>
        let packet := PacketWithHeader_New in
        let packet :=
          if negb (failed ec)
          then {| header := header; body := body |}
          else packet in
        callback ec packet)).

Definition PacketWithHeader_ToString
    (p : PacketWithHeader Header Body) : list byte :=
  ToString (header p) ++ ToString (body p).

#[global] Instance PacketWithHeader_Packet :
    Packet (PacketWithHeader Header Body) := {|
  New := PacketWithHeader_New;
  Validate := PacketWithHeader_Validate;
  ToString := PacketWithHeader_ToString;
  StartCreateFrom := @PacketWithHeader_StartCreateFrom;
|}.
End PacketWithHeader.

(** [template <typename PacketType, size_t N> class PacketWithSize]: the
    subclass brings its default constructor, [ToBytes], which writes to a
    pre-allocated area, and [FromBytes], which fills the fields of the
    packet it is called on; [Validate] is [PacketBase]'s unless the
    subclass overrides it. *)
Class PacketWithSize (PacketType : Type) (N : nat) := {
  PacketType_New : PacketType;
  PacketType_Validate : PacketType -> bool;
  ToBytes : PacketType -> list byte -> list byte;
  FromBytes : list byte -> PacketType -> PacketType;
}.

(** [PacketBase::Validate]: always [true]. *)
Definition PacketBase_Validate {P} (p : P) : bool := true.

Section PacketWithSize.
Context {PacketType : Type} {N : nat} `{PacketWithSize PacketType N}.

Definition PacketWithSize_StartCreateFrom {E}
    (transport : TransportBase)
    (callback : ec_type -> PacketType -> Op E) : Op E :=
  StartRead transport N (fun error_code _ data =>
    let packet := PacketType_New in
    let packet :=
      if negb (failed error_code) then FromBytes data packet else packet in
    callback error_code packet).

Definition PacketWithSize_ToString (p : PacketType) : list byte :=
  let data := replicate N x00 in
  ToBytes p data.

Definition PacketWithSize_Packet : Packet PacketType := {|
  New := PacketType_New;
  Validate := PacketType_Validate;
  ToString := PacketWithSize_ToString;
  StartCreateFrom := @PacketWithSize_StartCreateFrom;
|}.
End PacketWithSize.

(** A creation function, run against [script], issues the operations
    [pre], uses up the script down to [script'] and then hands [ec] and
    [p] to its callback, whatever the callback is. *)
Definition delivers {P} `{Packet P} (transport : TransportBase)
    (script : list completion) (pre : list io_event)
    (ec : ec_type) (p : P) (script' : list completion) : Prop :=
  forall E (callback : ec_type -> P -> Op E),
    run (StartCreateFrom transport callback) script
    = map IO pre ++ run (callback ec p) script'.

(** A callback that only records what it is given. *)
Definition observe {P} : ec_type -> P -> Op (ec_type * P) :=
  fun ec p => Call (ec, p) Stop.

End Base.
Export Base.

(** ** include/socks.h, as far as src/socks_upstream.cc uses it *)

Module Socks.

(** Modelled from the spec: [AuthMethod] of socks.h, which is not among the
    sources, with the wire values of the data model. *)
Definition AuthMethod := byte.
Definition kNoAuth : AuthMethod := x00.
Definition kNoAcceptable : AuthMethod := xff.

(** Modelled from the spec: [Command] of socks.h. *)
Definition Command := byte.
Definition kConnect : Command := x01.
Definition kBind : Command := x02.
Definition kUdpAssociate : Command := x03.

(** Modelled from the spec: [ResponseCode] of socks.h. *)
Definition ResponseCode := byte.
Definition kSuccess : ResponseCode := x00.
Definition kGeneralFailure : ResponseCode := x01.
Definition kConnectionNotAllowed : ResponseCode := x02.
Definition kNetworkUnreachable : ResponseCode := x03.
Definition kHostUnreachable : ResponseCode := x04.
Definition kConnectionRefused : ResponseCode := x05.
Definition kTtlExpired : ResponseCode := x06.
Definition kCommandNotSupported : ResponseCode := x07.
Definition kAddressTypeNotSupported : ResponseCode := x08.

(** Modelled from the spec: [error::make_error_code(ResponseCode)] of
    socks.h; a response code [R] of the next hop is passed on as the error
    code [R], here in a category of its own. *)
Definition make_error_code (code : ResponseCode) : ec_type :=
  {| ec_value := Z.of_N (Byte.to_N code); ec_category := socks_category |}.

(** Modelled from the spec: the greeting of socks.h,
    [VER=0x05][NMETHODS=n][METHODS(n)]. *)
Record AuthMethodList := {
  aml_version : byte;
  methods : list AuthMethod;
}.

(** Modelled from the spec: the answer to the greeting,
    [VER=0x05][METHOD(1)]. *)
Record AuthMethodSelectPacket := {
  ams_version : byte;
  method : AuthMethod;
}.

(** Modelled from the spec: the header of a request,
    [VER=0x05][CMD(1)][RSV=0x00]. *)
Record RequestHeader := {
  req_version : byte;
  command : Command;
}.

(** Modelled from the spec: the header of a response,
    [VER=0x05][REP(1)][RSV=0x00]. *)
Record ResponseHeader := {
  resp_version : byte;
  response_code : ResponseCode;
}.

(** Modelled from the spec: a [RequestPacket] is a [RequestHeader] followed
    by the target [Address], a [ResponsePacket] a [ResponseHeader] followed
    by the bound [Address]; the code assigns an [Address] to the body and
    reads one from it. *)
Definition RequestPacket := PacketWithHeader RequestHeader Address.
Definition ResponsePacket := PacketWithHeader ResponseHeader Address.

(** The arguments of a [RequestCallbackType]. *)
Definition Request : Type := ec_type * option TransportBase.

(** *** src/socks_upstream.cc

    The creation functions of the packets live in socks.cc; the functions
    of the upstream are taken over any implementation of them. *)
Section SocksTcpUpstreamFactory.
Context `{Packet AuthMethodList} `{Packet AuthMethodSelectPacket}.
Context `{Packet RequestHeader} `{Packet ResponseHeader} `{Packet Address}.

(** [SocksTcpUpstreamFactory::SendSocksRequest] *)
Definition SendSocksRequest (endpoint : Address)
    (transport : TransportBase) : Op Request :=
  let packet : RequestPacket := New in
  let packet : RequestPacket :=
    {| header := {| req_version := req_version (header packet);
                    command := kConnect |};
       body := endpoint |} in
  Log Debug "sending to SOCKS request packet" (
  StartWriteTo packet transport (fun ec _ =>
    if failed ec then
      Log Error "failed to send SOCKS request packet" (
      StartClose transport (
      Call (ec, None) Stop))
    else
      Log Debug "receiving SOCKS response packet" (
      StartCreateFrom (P := ResponsePacket) transport (fun ec packet =>
        if failed ec
           || negb (Byte.eqb (response_code (header packet)) kSuccess)
        then
          StartClose transport (
          if failed ec then
            Log Error "failed to receive SOCKS response packet" (
            Call (ec, None) Stop)
          else
            Log Error "upstream response" (
            Call (make_error_code (response_code (header packet)), None)
            Stop))
        else
          let wrapped_transport :=
            SocksTransportWrapper transport (body packet) in
          Log Info "connection established" (
          Call (ec, Some wrapped_transport) Stop))))).

(** [SocksTcpUpstreamFactory::SendAuthRequest] *)
Definition SendAuthRequest (endpoint : Address)
    (transport : TransportBase) : Op Request :=
  let packet : AuthMethodList := New in
  let packet :=
    {| aml_version := aml_version packet;
       methods := methods packet ++ [kNoAuth] |} in
  Log Debug "sending SOCKS auth request packet" (
  StartWriteTo packet transport (fun ec _ =>
    if failed ec then
      Log Error "failed to send SOCKS auth request packet" (
      StartClose transport (
      Call (ec, None) Stop))
    else
      Log Debug "receiving SOCKS auth acknowledgment packet" (
      StartCreateFrom (P := AuthMethodSelectPacket) transport
        (fun ec packet =>
          if failed ec || negb (Byte.eqb (method packet) kNoAuth) then
            (if failed ec then
               Log Error "failed to receive SOCKS auth acknowledgment packet"
             else
               Log Error "upstream chose an unsupported auth method") (
            StartClose transport (
            Call (ec, None) Stop))
          else
            SendSocksRequest endpoint transport)))).
End SocksTcpUpstreamFactory.

(** What [SendSocksRequest] writes, a request to connect to [endpoint],
    and what [SendAuthRequest] writes, a greeting that offers [kNoAuth]. *)
Definition request_to `{Packet RequestHeader} `{Packet Address}
    (endpoint : Address) : list byte :=
  ToString (P := RequestPacket)
    {| header := {| req_version := req_version (New (P := RequestHeader));
                    command := kConnect |};
       body := endpoint |}.

Definition greeting `{Packet AuthMethodList} : list byte :=
  ToString {| aml_version := aml_version (New (P := AuthMethodList));
              methods := methods (New (P := AuthMethodList)) ++ [kNoAuth] |}.

(** Modelled from the spec: [GetLocalAddress] of
    [impl::SocksTransportWrapper], declared in socks_upstream.h, which is
    not among the sources: the wrapper reports as its local address the
    address it was built with.  Of a transport of a factory it is
    [TcpTransportImpl::GetLocalAddress], the local endpoint of the socket
    through [Address::FromAsioEndpoint]. *)
Definition GetLocalAddress (t : TransportBase) : Address :=
  match t with
  | Established _ local_endpoint => FromAsioEndpoint local_endpoint
  | SocksTransportWrapper _ address => address
  end.

End Socks.
Export Socks.

(** ** src/socks.cc, which is not among the sources *)

Module SocksPackets.

Definition byte_of_Z (z : Z) : byte :=
  default x00 (Byte.of_N (Z.to_N (z mod 256))).
Definition Z_of_byte (b : byte) : Z := Z.of_N (Byte.to_N b).

(** Modelled from the spec: the answer to the greeting as a fixed-size
    packet of 2 bytes.  [VER] is read into the packet; the spec names no
    validation, which is then [PacketBase]'s, and no default for [method],
    taken as the zero byte. *)
#[global] Instance AuthMethodSelectPacket_WithSize :
    PacketWithSize AuthMethodSelectPacket 2 := {|
  PacketType_New := {| ams_version := x05; method := x00 |};
  PacketType_Validate := PacketBase_Validate;
  ToBytes p data := <[0 := ams_version p]> (<[1 := method p]> data);
  FromBytes data _ :=
    {| ams_version := nth 0 data x00; method := nth 1 data x00 |};
|}.

(** Modelled from the spec: the header of a request as a fixed-size packet
    of 3 bytes.  [RSV] is written as 0x00 and ignored on receive; validation
    rejects a [VER] that is not 0x05. *)
#[global] Instance RequestHeader_WithSize :
    PacketWithSize RequestHeader 3 := {|
  PacketType_New := {| req_version := x05; command := x00 |};
  PacketType_Validate p := Byte.eqb (req_version p) x05;
  ToBytes p data :=
    <[0 := req_version p]> (<[1 := command p]> (<[2 := x00]> data));
  FromBytes data _ :=
    {| req_version := nth 0 data x00; command := nth 1 data x00 |};
|}.

(** Modelled from the spec: the header of a response as a fixed-size
    packet of 3 bytes, with the validation of [PacketBase]. *)
#[global] Instance ResponseHeader_WithSize :
    PacketWithSize ResponseHeader 3 := {|
  PacketType_New := {| resp_version := x05; response_code := x00 |};
  PacketType_Validate := PacketBase_Validate;
  ToBytes p data :=
    <[0 := resp_version p]> (<[1 := response_code p]> (<[2 := x00]> data));
  FromBytes data _ :=
    {| resp_version := nth 0 data x00; response_code := nth 1 data x00 |};
|}.

(** The three of them get [StartCreateFrom] and [ToString] from
    [PacketWithSize]. *)
#[global] Instance AuthMethodSelectPacket_Packet :
  Packet AuthMethodSelectPacket := PacketWithSize_Packet.
#[global] Instance RequestHeader_Packet :
  Packet RequestHeader := PacketWithSize_Packet.
#[global] Instance ResponseHeader_Packet :
  Packet ResponseHeader := PacketWithSize_Packet.

(** Modelled from the spec: the greeting, [VER][NMETHODS=n][METHODS(n)],
    rejected by validation when [VER] is not 0x05 or [n] is 0. *)
Definition AuthMethodList_New : AuthMethodList :=
  {| aml_version := x05; methods := [] |}.

(** Modelled from the spec: the greeting is read as [VER] and [NMETHODS],
    then the [NMETHODS] methods. *)
Definition AuthMethodList_StartCreateFrom {E} (transport : TransportBase)
    (callback : ec_type -> AuthMethodList -> Op E) : Op E :=
  StartRead transport 2 (fun ec _ data =>
    if failed ec then callback ec AuthMethodList_New
    else
      StartRead transport (N.to_nat (Byte.to_N (nth 1 data x00)))
        (fun ec _ ms =>
          if failed ec then callback ec AuthMethodList_New
          else callback ec {| aml_version := nth 0 data x00;
                              methods := ms |})).

(** Modelled from the spec: validation and byte representation of the
    greeting. *)
#[global] Instance AuthMethodList_Packet : Packet AuthMethodList := {|
  New := AuthMethodList_New;
  Validate p :=
    Byte.eqb (aml_version p) x05 && negb (length (methods p) =? 0);
  ToString p :=
    aml_version p :: byte_of_Z (Z.of_nat (length (methods p))) :: methods p;
  StartCreateFrom := @AuthMethodList_StartCreateFrom;
|}.

(** Modelled from the spec: the address codec,
    [ATYP(1)][host(variable)][port(2, big-endian)].  Reading is in two
    phases: [ATYP], then by its value 4 or 16 bytes of host, or a length
    byte [L] and [L] bytes, then the 2 bytes of the port.  An unknown
    [ATYP] fails with [AddressTypeNotSupported] and a domain of length 0
    with [GeneralFailure]. *)
Definition read_host_and_port {E} (transport : TransportBase)
    (atyp : AddressType) (n : nat)
    (callback : ec_type -> Address -> Op E) : Op E :=
  StartRead transport n (fun ec _ h =>
    if failed ec then callback ec Address_default
    else
      StartRead transport 2 (fun ec _ p =>
        if failed ec then callback ec Address_default
        else
          callback ec
            {| type := atyp; host := h;
               port := 256 * Z_of_byte (nth 0 p x00)
                       + Z_of_byte (nth 1 p x00) |})).

(** Modelled from the spec: the first phase, [ATYP], and the choice of the
    second. *)
Definition Address_StartCreateFrom {E} (transport : TransportBase)
    (callback : ec_type -> Address -> Op E) : Op E :=
  StartRead transport 1 (fun ec _ data =>
    if failed ec then callback ec Address_default
    else
      let atyp := nth 0 data x00 in
      if Byte.eqb atyp kIPv4 then
        read_host_and_port transport atyp 4 callback
      else if Byte.eqb atyp kIPv6 then
        read_host_and_port transport atyp 16 callback
      else if Byte.eqb atyp kDomainName then
        StartRead transport 1 (fun ec _ l =>
          if failed ec then callback ec Address_default
          else
            let len := N.to_nat (Byte.to_N (nth 0 l x00)) in
            if len =? 0 then
              callback (make_error_code kGeneralFailure) Address_default
            else read_host_and_port transport atyp len callback)
      else
        callback (make_error_code kAddressTypeNotSupported) Address_default).

(** Modelled from the spec: an [Address] as the body of a packet; its
    [ToString] here is its form on the wire, not the text that
    [Address::ToString] of common.h makes for the log. *)
#[global] Instance Address_Packet : Packet Address := {|
  New := Address_default;
  Validate := PacketBase_Validate;
  ToString a :=
    type a ::
    (if Byte.eqb (type a) kDomainName
     then [byte_of_Z (Z.of_nat (length (host a)))] else [])
    ++ host a ++ [byte_of_Z (port a / 256); byte_of_Z (port a)];
  StartCreateFrom := @Address_StartCreateFrom;
|}.

(** Every address that a run hands to the observing callback keeps the
    invariant of the data model. *)
Definition delivered_addresses_match
    (trace : list (event (ec_type * Address))) : Prop :=
  Forall (fun ev => match ev with
                    | Called (_, a) => host_matches_type a
                    | IO _ => True
                    end) trace.

End SocksPackets.

(** ** src/direct_upstream.cc *)

Module Direct.

(** [std::copy(address.host.cbegin(), address.host.cend(),
    address_bytes.begin())] into a [bytes_type] that is not initialised:
    defined, and the whole array, only when [host] has the size of the
    array. *)
Definition copy_host (n : nat) (host : list byte) : option (vec byte n) :=
  match decide (length host = n) with
  | left e => Some (eq_rect _ (vec byte) (list_to_vec host) _ e)
  | right _ => None
  end.

(** [DirectTcpUpstreamFactory::StartRequest].  The callback is handed to
    [transport_factory_->StartConnect] as it is; [*iter] has no meaning on
    an empty result set; [ip::address_v6 asio_addr(address_bytes)] has the
    scope id 0. *)
Definition StartRequest (address : Address) : Op Request :=
  let callback : ec_type -> option TransportBase -> Op Request :=
    fun ec transport => Call (ec, transport) Stop in
  Log Info "sending request" (
  if Byte.eqb (type address) kDomainName then
    Log Debug "resolving address" (
    AsyncResolve (host address) (port address) (fun ec iter =>
      if failed ec then
        Log Error "failed to resolve address" (
        Call (ec, None) Stop)
      else
        match iter with
        | first :: _ => StartConnect first callback
        | [] => Undefined
        end))
  else if Byte.eqb (type address) kIPv4 then
    match copy_host 4 (host address) with
    | Some address_bytes =>
        StartConnect {| ep_address := address_v4 address_bytes;
                        ep_port := port address |} callback
    | None => Undefined
    end
  else if Byte.eqb (type address) kIPv6 then
    match copy_host 16 (host address) with
    | Some address_bytes =>
        StartConnect {| ep_address := address_v6 address_bytes 0;
                        ep_port := port address |} callback
    | None => Undefined
    end
  else
    Log Error "unknown address type" (
    Call (no_error, None) Stop)).

End Direct.

(** ** src/tcp_transport.cc *)

Module Tcp.

Inductive socket_option :=
| no_delay (v : bool)
| reuse_address (v : bool).

(** What the code relies on of a [boost::asio] socket or acceptor: whether
    it is open, and the options in effect on it: those set on it with
    [set_option], the latest first, before those it was made with. *)
Record socket := {
  is_open : bool;
  options : list socket_option;
}.

(** A call returns, or throws [boost::system::system_error]. *)
Inductive outcome (A : Type) :=
| Returned (a : A)
| Thrown (ec : ec_type).
Arguments Returned {A}.
Arguments Thrown {A}.

#[global] Instance outcome_bind : MBind outcome := fun A B f m =>
  match m with
  | Returned a => f a
  | Thrown ec => Thrown ec
  end.

(** Boost.Asio, [socket_ops::shutdown]: on a socket that is not open the
    answer is [bad_descriptor]; on an open one it is the answer [os] of the
    operating system. *)
Definition shutdown (os : ec_type) (s : socket) : ec_type :=
  if is_open s then os else bad_descriptor.

(** Boost.Asio, [close(ec)]: closing a socket that is not open is no
    error; an open one is released whatever the operating system
    answers. *)
Definition close_ec (os : ec_type) (s : socket) : ec_type * socket :=
  (if is_open s then os else no_error,
   {| is_open := false; options := options s |}).

(** Boost.Asio, [close()]: the same, throwing the error. *)
Definition close (os : ec_type) (s : socket) : outcome socket :=
  let '(ec, s) := close_ec os s in
  if failed ec then Thrown ec else Returned s.

(** Boost.Asio, [set_option(option)]: throws on a socket that is not open
    and when the operating system refuses. *)
Definition set_option (os : ec_type) (o : socket_option) (s : socket)
    : outcome socket :=
  if negb (is_open s) then Thrown bad_descriptor
  else if failed os then Thrown os
  else Returned {| is_open := true; options := o :: options s |}.

(** [class TcpTransportImpl], made by [NewTransport()] around a socket
    that is not open yet. *)
Record TcpTransportImpl := {
  socket_ : socket;
}.

Definition NewTransport : TcpTransportImpl :=
  {| socket_ := {| is_open := false; options := [] |} |}.

(** The answers of the operating system to the two calls of a close. *)
Record close_answers := {
  on_shutdown : ec_type;
  on_close : ec_type;
}.

(** [TcpTransportImpl::StartClose(callback)]: the transport afterwards and
    the error code given to [callback], unless [socket_.close()] threw. *)
Definition StartClose (os : close_answers) (t : TcpTransportImpl)
    : TcpTransportImpl * outcome ec_type :=
  let ec := shutdown (on_shutdown os) (socket_ t) in
  if failed ec then
    let closed := {| socket_ := snd (close_ec (on_close os) (socket_ t)) |} in
    (closed, _ ← close (on_close os) (socket_ t); Returned ec)
  else
    let '(ec, s) := close_ec (on_close os) (socket_ t) in
    ({| socket_ := s |}, Returned ec).

(** The calls of the callbacks of the factory, with the transport as it is
    at the call. *)
Inductive callback_event :=
| AcceptCallback (ec : ec_type) (transport : TcpTransportImpl)
| ConnectCallback (ec : ec_type) (transport : option TcpTransportImpl).

(** Boost.Asio, [async_accept(socket, handler)] on [acceptor]: on success
    the socket is the accepted connection, which the operating system makes
    with the options in effect on the listening socket, [TCP_NODELAY] among
    them. *)
Definition accept_into (acceptor : socket) (ec : ec_type)
    (t : TcpTransportImpl) : TcpTransportImpl :=
  if failed ec then t
  else {| socket_ := {| is_open := true; options := options acceptor |} |}.

(** [TcpTransportFactoryImpl::DoAccept].  [accepts] are the completions of
    the successive [async_accept]: when they are used up the last one stays
    pending.  The callback of the caller answers whether to go on. *)
Fixpoint DoAccept (acceptor : socket)
    (callback : ec_type -> TcpTransportImpl -> bool)
    (accepts : list ec_type) : list callback_event :=
  let transport := NewTransport in
  match accepts with
  | [] => []
  | ec :: accepts =>
      let transport := accept_into acceptor ec transport in
      AcceptCallback ec transport ::
      if callback ec transport then
        (* recursively accept more connections *)
        DoAccept acceptor callback accepts
      else []
  end.

(** The answers of the operating system while the acceptor is set up. *)
Record accept_answers := {
  on_listen : ec_type;
  on_no_delay : ec_type;
  on_reuse_address : ec_type;
}.

(** Boost.Asio, the constructor [acceptor(io_service, endpoint)]: opens the
    acceptor, sets [reuse_address] (its third parameter, true by default),
    binds and listens, and throws what fails. *)
Definition new_acceptor (os : ec_type) (e : endpoint) : outcome socket :=
  if failed os then Thrown os
  else Returned {| is_open := true; options := [reuse_address true] |}.

(** [TcpTransportFactoryImpl::StartAccept]: the acceptor as it is when the
    first [async_accept] is issued, and the calls of [callback]. *)
Definition StartAccept (os : accept_answers) (e : endpoint)
    (callback : ec_type -> TcpTransportImpl -> bool)
    (accepts : list ec_type) : outcome (socket * list callback_event) :=
  acceptor ← new_acceptor (on_listen os) e;
  acceptor ← set_option (on_no_delay os) (no_delay true) acceptor;
  acceptor ← set_option (on_reuse_address os) (reuse_address true) acceptor;
  Returned (acceptor, DoAccept acceptor callback accepts).

(** The completion of an [async_connect] and the answers of the operating
    system to what the handler calls.  Boost.Asio opens the socket for
    the connect; [opened] tells whether that worked when the connect
    failed. *)
Record connect_answers := {
  connected : ec_type;
  opened : bool;
  on_set_option : ec_type;
  on_start_close : close_answers;
}.

(** [TcpTransportFactoryImpl::StartConnect] *)
Definition StartConnect (os : connect_answers) (e : endpoint)
    : outcome callback_event :=
  let transport := NewTransport in
  let ec := connected os in
  let transport :=
    {| socket_ := {| is_open := if failed ec then opened os else true;
                     options := options (socket_ transport) |} |} in
  if failed ec then
    let '(transport, closing) := StartClose (on_start_close os) transport in
    _ ← closing;
    Returned (ConnectCallback ec None)
  else
    s ← set_option (on_set_option os) (no_delay true) (socket_ transport);
    let transport := {| socket_ := s |} in
    Returned (ConnectCallback ec (Some transport)).

End Tcp.

(** ** src/ssl.cc: [SslTransportFactoryBuilder] *)

Module Ssl.

Inductive context_option :=
| no_sslv2 | no_sslv3 | no_tlsv1 | single_dh_use | default_workarounds.

Inductive verify_flag :=
| verify_peer | verify_fail_if_no_peer_cert | verify_client_once.

(** What the builder puts into its [boost::asio::ssl::context]. *)
Record context := {
  ctx_options : list context_option;
  verify_paths : list string;
  verify_files : list string;
  certificate : option string;
  certificate_chain : option string;
  private_key : option string;
  tmp_dh : option string;
  verify_depth : option Z;
  verify_mode : list verify_flag;
  verify_host : option string;
}.

(** [context(sslv23)] *)
Definition sslv23 : context := {|
  ctx_options := []; verify_paths := []; verify_files := [];
  certificate := None; certificate_chain := None; private_key := None;
  tmp_dh := None; verify_depth := None; verify_mode := [];
  verify_host := None;
|}.

(** [impl::SslTransportFactoryImpl(io_service_ptr, std::move(ssl_ctx_))],
    with the context that was moved into it. *)
Record SslTransportFactoryImpl := {
  io_service_ptr_ : Z;
  ssl_ctx_of : option context;
}.

(** [class SslTransportFactoryBuilder]; [ssl_ctx_] is [None] once it has
    been moved from. *)
Record SslTransportFactoryBuilder := {
  ssl_ctx_ : option context;
  used_ : bool;
}.

(** The constructor. *)
Definition Builder : SslTransportFactoryBuilder := {|
  ssl_ctx_ := Some {|
    ctx_options := [no_sslv2; no_sslv3; no_tlsv1; single_dh_use;
                    default_workarounds];
    verify_paths := verify_paths sslv23;
    verify_files := verify_files sslv23;
    certificate := certificate sslv23;
    certificate_chain := certificate_chain sslv23;
    private_key := private_key sslv23;
    tmp_dh := tmp_dh sslv23;
    verify_depth := verify_depth sslv23;
    verify_mode := verify_mode sslv23;
    verify_host := verify_host sslv23 |};
  used_ := false;
|}.

(** [SslTransportFactoryBuilder::Build]: what it returns, [None] for
    [nullptr], and the builder afterwards. *)
Definition Build (io_service_ptr : Z) (b : SslTransportFactoryBuilder)
    : option SslTransportFactoryImpl * SslTransportFactoryBuilder :=
  if used_ b then (None, b)
  else
    let b := {| ssl_ctx_ := ssl_ctx_ b; used_ := true |} in
    (Some {| io_service_ptr_ := io_service_ptr; ssl_ctx_of := ssl_ctx_ b |},
     {| ssl_ctx_ := None; used_ := used_ b |}).

(** The other member functions, which return [*this]. *)
Inductive setter :=
| AddCaPath (path : string)
| LoadCaFile (pem_file : string)
| LoadCert (pem_file : string)
| LoadCertChain (pem_file : string)
| LoadPrivateKey (pem_file : string)
| LoadDhParams (file : string)
| SetVerifyDepth (depth : Z)
| SetVerifyPeer (verify : bool)
| SetVerifyHost (host : string).

Definition set (s : setter) (c : context) : context :=
  let upd o p f crt ch k dh d m h := {|
    ctx_options := o; verify_paths := p; verify_files := f;
    certificate := crt; certificate_chain := ch; private_key := k;
    tmp_dh := dh; verify_depth := d; verify_mode := m; verify_host := h |} in
  let '{| ctx_options := o; verify_paths := p; verify_files := f;
          certificate := crt; certificate_chain := ch; private_key := k;
          tmp_dh := dh; verify_depth := d; verify_mode := m;
          verify_host := h |} := c in
  match s with
  | AddCaPath path => upd o (path :: p) f crt ch k dh d m h
  | LoadCaFile pem_file => upd o p (pem_file :: f) crt ch k dh d m h
  | LoadCert pem_file => upd o p f (Some pem_file) ch k dh d m h
  | LoadCertChain pem_file => upd o p f crt (Some pem_file) k dh d m h
  | LoadPrivateKey pem_file => upd o p f crt ch (Some pem_file) dh d m h
  | LoadDhParams file => upd o p f crt ch k (Some file) d m h
  | SetVerifyDepth depth => upd o p f crt ch k dh (Some depth) m h
  | SetVerifyPeer verify =>
      if verify then
        upd o p f crt ch k dh d
            [verify_peer; verify_fail_if_no_peer_cert; verify_client_once] h
      else upd o p f crt ch k dh d [] h
  | SetVerifyHost host => upd o p f crt ch k dh d m (Some host)
  end.

Section Calls.
(** Whether the context accepts what a setter gives it (a file that
    loads, a path that exists); when it does not, the call throws. *)
Variable accepts : setter -> bool.

(** What a call that throws has made of the context by then: OpenSSL may
    have installed a part of a file that fails further on. *)
Variable leaves : setter -> context -> context.

(** The context after a setter that threw.  Each setter makes one call on
    the context, so that a loader that fails changes at most what is
    loaded, as [leaves] tells, and neither the options nor the verify
    settings. *)
Definition thrown (s : setter) (c : context) : context :=
  {| ctx_options := ctx_options c;
     verify_paths := verify_paths (leaves s c);
     verify_files := verify_files (leaves s c);
     certificate := certificate (leaves s c);
     certificate_chain := certificate_chain (leaves s c);
     private_key := private_key (leaves s c);
     tmp_dh := tmp_dh (leaves s c);
     verify_depth := verify_depth c;
     verify_mode := verify_mode c;
     verify_host := verify_host c |}.

(** A setter called on the builder: the builder afterwards, or [None]
    when [ssl_ctx_] has been moved from, on which these calls have no
    meaning. *)
Definition apply (s : setter) (b : SslTransportFactoryBuilder)
    : option SslTransportFactoryBuilder :=
  match ssl_ctx_ b with
  | Some ctx =>
      Some {| ssl_ctx_ := Some (if accepts s then set s ctx
                                else thrown s ctx);
              used_ := used_ b |}
  | None => None
  end.

Inductive call :=
| CallBuild (io_service_ptr : Z)
| CallSetter (s : setter).

(** What the successive calls of [Build] return when [calls] are made on
    a builder, in order, for as long as the calls have a meaning. *)
Fixpoint Builds (b : SslTransportFactoryBuilder) (calls : list call)
    : list (option SslTransportFactoryImpl) :=
  match calls with
  | [] => []
  | CallBuild io_service_ptr :: calls =>
      let '(factory, b) := Build io_service_ptr b in
      factory :: Builds b calls
  | CallSetter s :: calls =>
      match apply s b with
      | Some b => Builds b calls
      | None => []
      end
  end.
End Calls.

End Ssl.

(** ** Sample values *)

Module Samples.

(** 10.0.0.2:40000, the local endpoint of a socket to the next hop. *)
Definition local_endpoint : endpoint :=
  {| ep_address := address_v4 [# x0a; x00; x00; x02]; ep_port := 40000 |}.

Definition upstream : TransportBase := Established 1 local_endpoint.

(** 127.0.0.1:7 *)
Definition target : Address :=
  {| type := kIPv4; host := [x7f; x00; x00; x01]; port := 7 |}.

(** 192.0.2.9:1080, as the next hop reports it. *)
Definition bound : Address :=
  {| type := kIPv4; host := [xc0; x00; x02; x09]; port := 1080 |}.

Definition wire (data : list byte) : completion := Transferred no_error data.

(** The bytes of [bound] on the wire, read by read. *)
Definition bound_on_wire : list completion :=
  [wire [x01]; wire [xc0; x00; x02; x09]; wire [x04; x38]].

Definition bound_reads : list io_event :=
  [EvRead upstream 1; EvRead upstream 4; EvRead upstream 2].

Definition all_fine : Tcp.close_answers :=
  {| Tcp.on_shutdown := no_error; Tcp.on_close := no_error |}.

Definition listening : Tcp.accept_answers :=
  {| Tcp.on_listen := no_error; Tcp.on_no_delay := no_error;
     Tcp.on_reuse_address := no_error |}.

Definition connecting : Tcp.connect_answers :=
  {| Tcp.connected := no_error; Tcp.opened := true;
     Tcp.on_set_option := no_error; Tcp.on_start_close := all_fine |}.

Definition open_transport : Tcp.TcpTransportImpl :=
  {| Tcp.socket_ := {| Tcp.is_open := true; Tcp.options := [] |} |}.

End Samples.

(** ** Observations on endpoints and runs *)

Module Observations.

(** An endpoint with a version 4 or version 6 address. *)
Definition has_address (e : endpoint) : Prop := ep_address e <> address_none.

(** The endpoint with the scope id of its version 6 address set to 0. *)
Definition without_scope (e : endpoint) : endpoint :=
  {| ep_address :=
       match ep_address e with
       | address_v6 bytes _ => address_v6 bytes 0
       | other => other
       end;
     ep_port := ep_port e |}.

(** The operations that start a connect. *)
Definition starts_connect (e : io_event) : bool :=
  match e with
  | EvConnect _ => true
  | _ => false
  end.

(** The arguments of the calls of the callback in a run, in order. *)
Fixpoint called {E} (trace : list (event E)) : list E :=
  match trace with
  | [] => []
  | Called e :: trace => e :: called trace
  | IO _ :: trace => called trace
  end.

(** The operations of a run, in order. *)
Fixpoint operations {E} (trace : list (event E)) : list io_event :=
  match trace with
  | [] => []
  | IO e :: trace => e :: operations trace
  | Called _ :: trace => operations trace
  end.

(** The operations on an established transport: reads, writes, closes. *)
Definition on_transport (e : io_event) : bool :=
  match e with
  | EvRead _ _ | EvWrite _ _ | EvClose _ => true
  | EvResolve _ _ | EvConnect _ | EvUndefined => false
  end.

End Observations.
Export Observations.

(** ** src/tcp_transport.cc: [TryConnect] *)

Module TcpTryConnect.
Import Tcp.

(** [boost::asio::error::not_found], 3 in the misc category. *)
Definition not_found : ec_type :=
  {| ec_value := 3; ec_category := misc_category |}.

(** What a synchronous connect to an endpoint meets: its error code, and
    whether the socket could be opened for it when it failed. *)
Record attempt := {
  connect_ec : ec_type;
  socket_opened : bool;
}.

(** Boost.Asio, [connect(socket, begin, ec)]: the endpoints are tried in
    order, the socket closed and connected anew, on a new descriptor with no
    option set, for each; the first connect
    without error ends the loop and its iterator is returned.  When none is
    left the iterator returned is the end, and the error the last one, or
    [not_found] when there was none.  [world] tells what a connect to an
    endpoint meets. *)
Fixpoint connect (world : endpoint -> attempt) (s : socket)
    (iter : list endpoint) (ec : ec_type)
    : socket * ec_type * list endpoint :=
  match iter with
  | [] => (s, if failed ec then ec else not_found, [])
  | e :: rest =>
      let s := snd (close_ec no_error s) in
      let ec := connect_ec (world e) in
      let s := {| is_open := if failed ec then socket_opened (world e)
                             else true;
                  options := [] |} in
      if failed ec then connect world s rest ec else (s, ec, iter)
  end.

(** [TcpTransportFactoryImpl::TryConnect(iter, error_code)]: the transport
    it returns, [error_code] and [iter] afterwards.  [iter] goes to
    [connect] by value and what [connect] returns is dropped. *)
Definition TryConnect (world : endpoint -> attempt) (iter : list endpoint)
    : TcpTransportImpl * ec_type * list endpoint :=
  let transport := NewTransport in
  let '(s, error_code, _) :=
    connect world (socket_ transport) iter no_error in
  ({| socket_ := s |}, error_code, iter).

End TcpTryConnect.

(** ** src/ssl.cc: the transport and its factory *)

Module SslTransport.
Import Tcp.

(** [class SslTransportImpl]: of its [ssl_sock_], the socket underneath
    ([lowest_layer()]), whether a handshake went through and whether a
    shutdown of the session was started. *)
Record SslTransportImpl := {
  lowest_layer : socket;
  handshaken : bool;
  shutting_down : bool;
}.

(** A new [SslTransportImpl] on the context of the factory. *)
Definition NewTransport : SslTransportImpl :=
  {| lowest_layer := {| is_open := false; options := [] |};
     handshaken := false; shutting_down := false |}.

(** [SslTransportImpl::StartClose()]: [async_shutdown] is started, with a
    handler that keeps the transport alive; the socket underneath is not
    touched. *)
Definition StartClose (t : SslTransportImpl) : SslTransportImpl :=
  {| lowest_layer := lowest_layer t; handshaken := handshaken t;
     shutting_down := true |}.

Inductive callback_event :=
| AcceptCallback (ec : ec_type) (transport : option SslTransportImpl)
| ConnectCallback (ec : ec_type) (transport : option SslTransportImpl).

(** What happens to one [async_accept]: its completion, and the completion
    of the handshake that follows a good one, [None] for a handshake that
    never completes. *)
Record accept_answers := {
  accepted : ec_type;
  accept_handshake : option ec_type;
}.

(** [SslTransportFactoryImpl::DoAccept].  As for the TCP factory, the
    socket of an accepted connection comes with the options in effect on
    the listening socket. *)
Fixpoint DoAccept (acceptor : socket)
    (callback : ec_type -> option SslTransportImpl -> bool)
    (accepts : list accept_answers) : list callback_event :=
  let transport := NewTransport in
  match accepts with
  | [] => []
  | a :: accepts =>
      let ec := accepted a in
      if failed ec then
        (* accept() call failed. impossible to proceed. *)
        let transport := StartClose transport in
        [AcceptCallback ec None]
      else
        let transport :=
          {| lowest_layer := {| is_open := true;
                                options := options acceptor |};
             handshaken := handshaken transport;
             shutting_down := shutting_down transport |} in
        match accept_handshake a with
        | None => []
        | Some ec =>
            let transport :=
              if failed ec then StartClose transport
              else {| lowest_layer := lowest_layer transport;
                      handshaken := true;
                      shutting_down := shutting_down transport |} in
            let given := if failed ec then None else Some transport in
            AcceptCallback ec given ::
            if callback ec given then DoAccept acceptor callback accepts
            else []
        end
  end.

(** [SslTransportFactoryImpl::StartAccept]: the acceptor as it is when the
    first [async_accept] is issued, kept in [last_acceptor_], and the calls
    of [callback]. *)
Definition StartAccept (os : Tcp.accept_answers) (e : endpoint)
    (callback : ec_type -> option SslTransportImpl -> bool)
    (accepts : list accept_answers) : outcome (socket * list callback_event) :=
  acceptor ← new_acceptor (on_listen os) e;
  acceptor ← set_option (on_no_delay os) (no_delay true) acceptor;
  acceptor ← set_option (on_reuse_address os) (reuse_address true) acceptor;
  Returned (acceptor, DoAccept acceptor callback accepts).

(** The completion of the [async_connect], the answer of the operating
    system to the [set_option] of the handler, and the completion of the
    handshake, [None] for one that never completes. *)
Record connect_answers := {
  connected : ec_type;
  opened : bool;
  on_set_option : ec_type;
  connect_handshake : option ec_type;
}.

(** [SslTransportFactoryImpl::StartConnect]: the calls of [callback] in
    order, and how the handler of the connect ended: it returned, or
    [set_option] threw.  The branch of the failed connect does not return:
    the handler goes on to [set_option] and [async_handshake]. *)
Definition StartConnect (os : connect_answers) (e : endpoint)
    : list callback_event * outcome unit :=
  let transport := NewTransport in
  let ec := connected os in
  let transport :=
    {| lowest_layer := {| is_open := if failed ec then opened os else true;
                          options := options (lowest_layer transport) |};
       handshaken := handshaken transport;
       shutting_down := shutting_down transport |} in
  let '(transport, first) :=
    if failed ec then (StartClose transport, [ConnectCallback ec None])
    else (transport, []) in
  match set_option (on_set_option os) (no_delay true)
                   (lowest_layer transport) with
  | Thrown thrown => (first, Thrown thrown)
  | Returned s =>
      let transport :=
        {| lowest_layer := s; handshaken := handshaken transport;
           shutting_down := shutting_down transport |} in
      match connect_handshake os with
      | None => (first, Returned ())
      | Some ec =>
          if failed ec then
            let transport := StartClose transport in
            (first ++ [ConnectCallback ec None], Returned ())
          else
            let transport :=
              {| lowest_layer := lowest_layer transport; handshaken := true;
                 shutting_down := shutting_down transport |} in
            (first ++ [ConnectCallback ec (Some transport)], Returned ())
      end
  end.

(** The answers to the two calls that [TryConnect] makes after a connect. *)
Record try_answers := {
  try_set_option : ec_type;
  try_handshake : ec_type;
}.

(** [SslTransportFactoryImpl::TryConnect(iter, error_code)]: the transport
    it returns, [None] for [nullptr], [error_code] and [iter] afterwards,
    unless [set_option] threw. *)
Definition TryConnect (world : endpoint -> TcpTryConnect.attempt)
    (os : try_answers) (iter : list endpoint)
    : outcome (option SslTransportImpl * ec_type * list endpoint) :=
  let transport := NewTransport in
  let '(s, error_code, iter) :=
    TcpTryConnect.connect world (lowest_layer transport) iter no_error in
  let transport :=
    {| lowest_layer := s; handshaken := handshaken transport;
       shutting_down := shutting_down transport |} in
  '(transport, error_code) ←
    (if negb (failed error_code) then
       s ← set_option (try_set_option os) (no_delay true)
                      (lowest_layer transport);
       let error_code := try_handshake os in
       Returned ({| lowest_layer := s;
                    handshaken := negb (failed error_code);
                    shutting_down := shutting_down transport |}, error_code)
     else Returned (transport, error_code));
  if failed error_code then
    let transport := StartClose transport in
    Returned (None, error_code, iter)
  else Returned (Some transport, error_code, iter).

End SslTransport.

(** ** src/socks_upstream.cc: [SocksTcpUpstreamFactory::StartRequest] *)

Module SocksFactory.

(** The members of [SocksTcpUpstreamFactory] that [StartRequest] uses. *)
Record SocksTcpUpstreamFactory := {
  upstream_host_ : list byte;
  upstream_port_ : Z;
  is_upstream_endpoint_init_ : bool;
  upstream_endpoint_ : endpoint;
}.

Section StartRequest.
Context `{Packet AuthMethodList} `{Packet AuthMethodSelectPacket}.
Context `{Packet RequestHeader} `{Packet ResponseHeader} `{Packet Address}.

(** [transport_factory_->TryConnect(iter, ec)] of the transport factory in
    use: the transport it returns, [ec] and [iter] afterwards. *)
Variable TryConnect :
  list endpoint -> option TransportBase * ec_type * list endpoint.

(** [SocksTcpUpstreamFactory::StartRequest], one thread at a time.
    [resolved] is what the synchronous [resolver.resolve(query, ec)] answers
    for the host and port of the upstream, were it called: [ec] and the
    iterator.  The result is the factory afterwards and what the request
    goes on to do.  [*iter] has no meaning at the end of the results, and
    neither has [SendAuthRequest] on a null transport. *)
Definition StartRequest (self : SocksTcpUpstreamFactory)
    (resolved : ec_type * list endpoint) (endpoint : Address)
    : SocksTcpUpstreamFactory * Op Request :=
  let proceed (self : SocksTcpUpstreamFactory)
              (transport : option TransportBase) : Op Request :=
    match transport with
    | Some transport =>
        (* connection to upstream established already *)
        SendAuthRequest endpoint transport
    | None =>
        (* not connected yet *)
        Log Debug "try connecting to upstream" (
        StartConnect (upstream_endpoint_ self) (fun ec transport =>
          if failed ec then
            Log Error "failed to connect to upstream" (
            Call (ec, None) Stop)
          else
            match transport with
            | Some transport => SendAuthRequest endpoint transport
            | None => Undefined
            end))
    end in
  if negb (is_upstream_endpoint_init_ self) then
    let '(ec, iter) := resolved in
    if failed ec then
      (self, Log Error "failed to resolve upstream address" (
             Call (ec, None) Stop))
    else
      let '(transport, ec, iter) := TryConnect iter in
      if failed ec then
        (self, Log Error "failed to connect to upstream" (
               Call (ec, None) Stop))
      else
        match iter with
        | first :: _ =>
            let self :=
              {| upstream_host_ := upstream_host_ self;
                 upstream_port_ := upstream_port_ self;
                 is_upstream_endpoint_init_ := true;
                 upstream_endpoint_ := first |} in
            (self, proceed self transport)
        | [] => (self, Undefined)
        end
  else (self, proceed self None).

(** The factory after a sequence of requests, each with the answer the
    resolver would give at that time. *)
Fixpoint after_requests (self : SocksTcpUpstreamFactory)
    (requests : list (ec_type * list endpoint * Address))
    : SocksTcpUpstreamFactory :=
  match requests with
  | [] => self
  | (resolved, endpoint) :: requests =>
      after_requests (fst (StartRequest self resolved endpoint)) requests
  end.

End StartRequest.

End SocksFactory.

(** ** Observations on the builder *)

Module SslVerify.
Import Ssl.

(** The argument of the last call of [SetVerifyPeer] that did not throw,
    among the setters called so far. *)
Definition last_verify_peer (accepts : setter -> bool)
    (setters : list setter) : option bool :=
  fold_left (fun last s =>
               match s with
               | SetVerifyPeer verify => if accepts s then Some verify else last
               | _ => last
               end) setters None.

End SslVerify.

(** ** Further sample values *)

Module MoreSamples.

(** [fe80::1]:1080 on the interface [scope_id]. *)
Definition link_local (scope_id : Z) : endpoint :=
  {| ep_address :=
       address_v6 [# xfe; x80; x00; x00; x00; x00; x00; x00;
                     x00; x00; x00; x00; x00; x00; x00; x01] scope_id;
     ep_port := 1080 |}.

(** 10.0.0.3:1080 *)
Definition second_endpoint : endpoint :=
  {| ep_address := address_v4 [# x0a; x00; x00; x03]; ep_port := 1080 |}.

(** A world in which 10.0.0.2:40000 alone can be connected. *)
Definition only_local (e : endpoint) : TcpTryConnect.attempt :=
  {| TcpTryConnect.connect_ec :=
       if (ep_port e =? 40000)%Z then no_error else bad_descriptor;
     TcpTryConnect.socket_opened := true |}.

(** A [TryConnect] for which the first result connects. *)
Definition connects_first (iter : list endpoint)
    : option TransportBase * ec_type * list endpoint :=
  (Some Samples.upstream, no_error, iter).

(** A factory for the upstream "a.b" on port 1080, as constructed, and one
    that has remembered 10.0.0.2:40000. *)
Definition new_factory : SocksFactory.SocksTcpUpstreamFactory :=
  {| SocksFactory.upstream_host_ := [x61; x2e; x62];
     SocksFactory.upstream_port_ := 1080;
     SocksFactory.is_upstream_endpoint_init_ := false;
     SocksFactory.upstream_endpoint_ :=
       {| ep_address := address_v4 [# x00; x00; x00; x00]; ep_port := 0 |} |}.

Definition ready_factory : SocksFactory.SocksTcpUpstreamFactory :=
  {| SocksFactory.upstream_host_ := [x61; x2e; x62];
     SocksFactory.upstream_port_ := 1080;
     SocksFactory.is_upstream_endpoint_init_ := true;
     SocksFactory.upstream_endpoint_ := Samples.local_endpoint |}.

End MoreSamples.

(** * Properties *)

(** ** Shared lemmas *)

Import SocksPackets.

Lemma length_fill n data : length (fill n data) = n.
Proof.
  unfold fill. rewrite length_take, length_app, length_replicate. lia.
Qed.

(** The creation function of a fixed-size packet: one read of [N] bytes,
    then the callback. *)
Lemma delivers_PacketWithSize {P N} (W : PacketWithSize P N) t ec data script :
  @delivers P PacketWithSize_Packet t (Transferred ec data :: script)
    [EvRead t N] ec
    (if failed ec then PacketType_New
     else FromBytes (fill N data) PacketType_New)
    script.
Proof.
  intros E callback. cbn. destruct (failed ec); reflexivity.
Qed.

(** The creation function of a header-then-body packet when the header
    arrives with an error. *)
Lemma delivers_header_error {Header Body} `{Packet Header} `{Packet Body}
    t script pre ec h script1 :
  delivers (P := Header) t script pre ec h script1 ->
  failed ec = true ->
  delivers (P := PacketWithHeader Header Body) t script pre ec New script1.
Proof.
  intros Hh Hec E callback. cbn. unfold PacketWithHeader_StartCreateFrom.
  rewrite Hh, Hec. reflexivity.
Qed.

(** The same when the header arrives without error: the body is read next. *)
Lemma delivers_header_then_body {Header Body} `{Packet Header} `{Packet Body}
    t script pre ec h script1 pre' ec' b script2 :
  delivers (P := Header) t script pre ec h script1 ->
  failed ec = false ->
  delivers (P := Body) t script1 pre' ec' b script2 ->
  delivers (P := PacketWithHeader Header Body) t script (pre ++ pre') ec'
    (if failed ec' then New else {| header := h; body := b |}) script2.
Proof.
  intros Hh Hec Hb E callback. cbn. unfold PacketWithHeader_StartCreateFrom.
  rewrite Hh, Hec, Hb, map_app, <- app_assoc.
  destruct (failed ec'); reflexivity.
Qed.

(** ** The address invariant *)

Lemma host_matches_typeb_spec a :
  host_matches_typeb a = true <-> host_matches_type a.
Proof.
  unfold host_matches_typeb, host_matches_type.
  destruct (Byte.eqb (type a) kIPv4) eqn:E4.
  { apply byte_dec_bl in E4. rewrite E4, Nat.eqb_eq.
    split; [intros ->|intros [? _]; auto]. repeat split; discriminate. }
  destruct (Byte.eqb (type a) kIPv6) eqn:E6.
  { apply byte_dec_bl in E6. rewrite E6, Nat.eqb_eq.
    split; [intros ->|intros (_ & ? & _); auto]. repeat split; discriminate. }
  destruct (Byte.eqb (type a) kDomainName) eqn:Ed.
  { apply byte_dec_bl in Ed. rewrite Ed, andb_true_iff, Nat.leb_le, Nat.leb_le.
    split; [intros ?|intros (_ & _ & ?); auto].
    repeat split; try discriminate; lia. }
  apply eqb_false in E4, E6, Ed.
  split; [intros _|reflexivity]. repeat split; intros; contradiction.
Qed.



(** ** Header-then-body packets *)

(** C3, as the code has it: [PacketWithHeader::StartCreateFrom] reads the
    header first.  When the header arrives with an error the operation ends
    there, with that error and a default-constructed packet, and nothing of
    the body is read.  When it arrives without error the body is read next,
    whatever [Validate] says of the header, and when the body arrives
    without error too the packet holds the header read before and the
    body. *)
Theorem PacketWithHeader_reads_header_then_body
    {Header Body} `{Packet Header} `{Packet Body}
    t script pre ec h script1 :
  delivers (P := Header) t script pre ec h script1 ->
  (failed ec = true ->
   delivers (P := PacketWithHeader Header Body) t script pre ec New script1)
  /\
  (failed ec = false ->
   forall pre' ec' b script2,
     delivers (P := Body) t script1 pre' ec' b script2 ->
     delivers (P := PacketWithHeader Header Body) t script (pre ++ pre') ec'
       (if failed ec' then New else {| header := h; body := b |}) script2).
Proof.
  intros Hh. split.
  - intros Hec. eapply delivers_header_error; eassumption.
  - intros Hec pre' ec' b script2 Hb.
    eapply delivers_header_then_body; eassumption.
Qed.

(** A request that arrives whole is delivered with its header and body. *)
Lemma PacketWithHeader_reads_header_then_body_witness :
  delivers (P := RequestPacket) Samples.upstream
    (Samples.wire [x05; x01; x00] :: Samples.bound_on_wire)
    ([EvRead Samples.upstream 3] ++ Samples.bound_reads) no_error
    {| header := {| req_version := x05; command := kConnect |};
       body := Samples.bound |} [].
Proof.
  refine (proj2 (PacketWithHeader_reads_header_then_body
            (Header := RequestHeader) (Body := Address)
            Samples.upstream _ [EvRead Samples.upstream 3] no_error
            {| req_version := x05; command := kConnect |}
            Samples.bound_on_wire _)
          eq_refl Samples.bound_reads no_error Samples.bound [] _).
  - intros E callback. reflexivity.
  - intros E callback. reflexivity.
Defined.

(** C3, as the spec has it, fails: a request header of version 4 does not
    pass [Validate], and the body is read all the same. *)
Lemma PacketWithHeader_reads_body_after_invalid_header :
  Validate {| req_version := x04; command := kConnect |} = false /\
  delivers (P := RequestHeader) Samples.upstream
    (Samples.wire [x04; x01; x00] :: Samples.bound_on_wire)
    [EvRead Samples.upstream 3] no_error
    {| req_version := x04; command := kConnect |} Samples.bound_on_wire /\
  run (StartCreateFrom (P := RequestPacket) Samples.upstream observe)
      (Samples.wire [x04; x01; x00] :: Samples.bound_on_wire)
  = [IO (EvRead Samples.upstream 3);
     IO (EvRead Samples.upstream 1);
     IO (EvRead Samples.upstream 4);
     IO (EvRead Samples.upstream 2);
     Called (no_error,
             {| header := {| req_version := x04; command := kConnect |};
                body := Samples.bound |})].
Proof.
  split; [reflexivity|]. split; [|reflexivity].
  intros E callback. reflexivity.
Qed.

(** C10: a packet read by [StartCreateFrom] that ends with an error is
    handed to the callback default-constructed.  For a fixed-size packet,
    nothing of what the failed read transferred gets into the packet; for a
    header-then-body packet, neither when the header fails nor when the
    body fails after the header was read without error. *)
Theorem StartCreateFrom_error_delivers_default
    {P N} (W : PacketWithSize P N)
    {Header Body} `{Packet Header} `{Packet Body}
    t ec data rest script pre h script1 ec0 pre' b script2 :
  failed ec = true ->
  @delivers P PacketWithSize_Packet t (Transferred ec data :: rest)
    [EvRead t N] ec PacketType_New rest
  /\
  (delivers (P := Header) t script pre ec h script1 ->
   delivers (P := PacketWithHeader Header Body) t script pre ec New script1)
  /\
  (delivers (P := Header) t script pre ec0 h script1 ->
   failed ec0 = false ->
   delivers (P := Body) t script1 pre' ec b script2 ->
   delivers (P := PacketWithHeader Header Body) t script (pre ++ pre') ec
     New script2).
Proof.
  intros Hec. repeat split.
  - pose proof (delivers_PacketWithSize W t ec data rest) as Hd.
    rewrite Hec in Hd. exact Hd.
  - intros Hh. eapply delivers_header_error; eassumption.
  - intros Hh Hec0 Hb.
    pose proof (delivers_header_then_body _ _ _ _ _ _ _ _ _ _ Hh Hec0 Hb) as Hd.
    rewrite Hec in Hd. exact Hd.
Qed.

(** The addresses that come off the wire keep the invariant as well. *)
Lemma host_matches_type_default : host_matches_type Address_default.
Proof. apply host_matches_typeb_spec. reflexivity. Qed.

Ltac trace_step :=
  first [ apply Forall_nil
        | apply Forall_cons; [exact I|]
        | apply Forall_cons; [exact host_matches_type_default|] ].

Lemma read_host_and_port_matches t atyp n script :
  (atyp = kIPv4 -> n = 4) -> (atyp = kIPv6 -> n = 16) ->
  (atyp = kDomainName -> 1 <= n <= 255) ->
  delivered_addresses_match
    (run (read_host_and_port t atyp n observe) script).
Proof.
  intros H4 H6 Hd.
  unfold delivered_addresses_match, read_host_and_port, observe.
  destruct script as [|[ec data| |] script]; cbn [run];
    repeat trace_step.
  destruct (failed ec); cbn [run]; repeat trace_step.
  destruct script as [|[ec' data'| |] script]; cbn [run];
    repeat trace_step.
  destruct (failed ec'); cbn [run]; repeat trace_step.
  apply Forall_cons; [|apply Forall_nil].
  repeat split; cbn [type host]; rewrite length_fill; auto;
    apply Hd; assumption.
Qed.

Lemma Address_StartCreateFrom_matches t script :
  delivered_addresses_match
    (run (StartCreateFrom (P := Address) t observe) script).
Proof.
  cbn [StartCreateFrom Address_Packet]. unfold Address_StartCreateFrom.
  destruct script as [|[ec data| |] script]; cbn [run];
    try (unfold delivered_addresses_match; repeat trace_step; fail).
  apply Forall_cons; [exact I|].
  destruct (failed ec).
  { cbn [run observe]. repeat trace_step. }
  destruct (Byte.eqb _ kIPv4) eqn:E4.
  { apply byte_dec_bl in E4. rewrite E4.
    apply read_host_and_port_matches; auto; discriminate. }
  destruct (Byte.eqb _ kIPv6) eqn:E6.
  { apply byte_dec_bl in E6. rewrite E6.
    apply read_host_and_port_matches; auto; discriminate. }
  destruct (Byte.eqb _ kDomainName) eqn:Ed.
  2:{ cbn [run observe]. repeat trace_step. }
  apply byte_dec_bl in Ed. rewrite Ed.
  destruct script as [|[ec' l| |] script]; cbn [run];
    try (repeat trace_step; fail).
  apply Forall_cons; [exact I|].
  destruct (failed ec').
  { cbn [run observe]. repeat trace_step. }
  destruct (_ =? 0) eqn:E0.
  { cbn [run observe]. repeat trace_step. }
  apply Nat.eqb_neq in E0.
  apply read_host_and_port_matches; try discriminate.
  intros _. split; [lia|].
  pose proof (Byte.to_N_bounded (nth 0 (fill 1 l) x00)). lia.
Qed.

(** A response whose header is cut short by the end of the stream, and one
    whose body is: the callback gets the default-constructed packet. *)
Lemma StartCreateFrom_error_delivers_default_witness :
  failed eof = true /\
  delivers (P := ResponseHeader) Samples.upstream
    [Transferred eof [x05; x04]] [EvRead Samples.upstream 3] eof New [] /\
  delivers (P := ResponsePacket) Samples.upstream
    [Transferred eof [x05; x04]] [EvRead Samples.upstream 3] eof New [] /\
  delivers (P := ResponsePacket) Samples.upstream
    [Samples.wire [x05; x04; x00]; Transferred eof []]
    [EvRead Samples.upstream 3; EvRead Samples.upstream 1] eof New [].
Proof.
  split; [reflexivity|].
  destruct (StartCreateFrom_error_delivers_default
              ResponseHeader_WithSize
              (Header := ResponseHeader) (Body := Address)
              Samples.upstream eof [x05; x04] []
              [Transferred eof [x05; x04]]
              [EvRead Samples.upstream 3] New [] no_error
              [EvRead Samples.upstream 1] New [] eq_refl)
    as (Hsize & Hheader & _).
  destruct (StartCreateFrom_error_delivers_default
              ResponseHeader_WithSize
              (Header := ResponseHeader) (Body := Address)
              Samples.upstream eof [] []
              [Samples.wire [x05; x04; x00]; Transferred eof []]
              [EvRead Samples.upstream 3]
              {| resp_version := x05; response_code := x04 |}
              [Transferred eof []] no_error
              [EvRead Samples.upstream 1] New [] eq_refl)
    as (_ & _ & Hbody).
  split; [exact Hsize|]. split.
  - apply Hheader. exact Hsize.
  - apply Hbody.
    + intros E callback. reflexivity.
    + reflexivity.
    + intros E callback. reflexivity.
Defined.

(** ** The SOCKS upstream *)

Lemma failed_make_error_code (code : ResponseCode) :
  code <> kSuccess -> failed (make_error_code code) = true.
Proof.
  intros Hc. unfold failed, make_error_code. cbn [ec_value].
  destruct code; try reflexivity. contradiction.
Qed.

(** C1: when the request has been written and the next hop answers with a
    [ResponsePacket], received without error, whose response code [R] is not
    [Success], [SendSocksRequest] closes the transport to the upstream and
    calls the callback with the error code made of [R], which is a failure
    of value [R], and a null transport. *)
Theorem SendSocksRequest_passes_on_response_code
    `{Packet RequestHeader} `{Packet ResponseHeader} `{Packet Address}
    endpoint transport ec_w sent script pre ec (packet : ResponsePacket)
    script' :
  failed ec_w = false ->
  delivers (P := ResponsePacket) transport script pre ec packet script' ->
  failed ec = false ->
  response_code (header packet) <> kSuccess ->
  let R := response_code (header packet) in
  run (SendSocksRequest endpoint transport) (Transferred ec_w sent :: script)
  = IO (EvWrite transport (request_to endpoint)) :: map IO pre
    ++ [IO (EvClose transport); Called (make_error_code R, None)]
  /\ failed (make_error_code R) = true
  /\ ec_value (make_error_code R) = Z.of_N (Byte.to_N R).
Proof.
  intros Hw Hd Hec HR R. split; [|split].
  - unfold SendSocksRequest, StartWriteTo. cbn [run]. rewrite Hw.
    cbn [run]. rewrite Hd, Hec. cbn [orb].
    destruct (Byte.eqb (response_code (header packet)) kSuccess) eqn:Es.
    + apply byte_dec_bl in Es. contradiction.
    + reflexivity.
  - apply failed_make_error_code. exact HR.
  - reflexivity.
Qed.

(** The next hop answers [05 04 00] and 192.0.2.9:1080: the request fails
    with the error code 4, [HostUnreachable]. *)
Lemma SendSocksRequest_passes_on_response_code_witness :
  run (SendSocksRequest Samples.target Samples.upstream)
      (Samples.wire [] :: Samples.wire [x05; x04; x00] :: Samples.bound_on_wire)
  = IO (EvWrite Samples.upstream
          [x05; x01; x00; x01; x7f; x00; x00; x01; x00; x07])
    :: map IO (EvRead Samples.upstream 3 :: Samples.bound_reads)
    ++ [IO (EvClose Samples.upstream);
        Called (make_error_code kHostUnreachable, None)]
  /\ failed (make_error_code kHostUnreachable) = true
  /\ ec_value (make_error_code kHostUnreachable) = 4%Z.
Proof.
  refine (SendSocksRequest_passes_on_response_code
            Samples.target Samples.upstream no_error []
            (Samples.wire [x05; x04; x00] :: Samples.bound_on_wire)
            (EvRead Samples.upstream 3 :: Samples.bound_reads) no_error
            {| header := {| resp_version := x05;
                            response_code := kHostUnreachable |};
               body := Samples.bound |}
            [] eq_refl _ eq_refl _).
  - intros E callback. reflexivity.
  - discriminate.
Defined.

(** C4: when the next hop answers [Success], received without error, the
    transport given to the callback is the wrapper of the transport to the
    upstream, and its [GetLocalAddress] is the address of the body of the
    [ResponsePacket], whatever the local endpoint of the socket to the
    upstream is. *)
Theorem SendSocksRequest_wraps_bound_address
    `{Packet RequestHeader} `{Packet ResponseHeader} `{Packet Address}
    endpoint transport ec_w sent script pre ec (packet : ResponsePacket)
    script' :
  failed ec_w = false ->
  delivers (P := ResponsePacket) transport script pre ec packet script' ->
  failed ec = false ->
  response_code (header packet) = kSuccess ->
  exists wrapped_transport,
    run (SendSocksRequest endpoint transport) (Transferred ec_w sent :: script)
    = IO (EvWrite transport (request_to endpoint)) :: map IO pre
      ++ [Called (ec, Some wrapped_transport)]
    /\ wrapped_transport = SocksTransportWrapper transport (body packet)
    /\ GetLocalAddress wrapped_transport = body packet.
Proof.
  intros Hw Hd Hec HR.
  exists (SocksTransportWrapper transport (body packet)).
  split; [|split; reflexivity].
  unfold SendSocksRequest, StartWriteTo. cbn [run]. rewrite Hw.
  cbn [run]. rewrite Hd, Hec, HR. reflexivity.
Qed.

(** The next hop answers [05 00 00] and 192.0.2.9:1080 over a socket bound
    to 10.0.0.2:40000: the transport reports 192.0.2.9:1080. *)
Lemma SendSocksRequest_wraps_bound_address_witness :
  exists wrapped_transport,
    run (SendSocksRequest Samples.target Samples.upstream)
        (Samples.wire [] :: Samples.wire [x05; x00; x00]
         :: Samples.bound_on_wire)
    = IO (EvWrite Samples.upstream
            [x05; x01; x00; x01; x7f; x00; x00; x01; x00; x07])
      :: map IO (EvRead Samples.upstream 3 :: Samples.bound_reads)
      ++ [Called (no_error, Some wrapped_transport)]
    /\ wrapped_transport = SocksTransportWrapper Samples.upstream Samples.bound
    /\ GetLocalAddress wrapped_transport = Samples.bound.
Proof.
  refine (SendSocksRequest_wraps_bound_address
            Samples.target Samples.upstream no_error []
            (Samples.wire [x05; x00; x00] :: Samples.bound_on_wire)
            (EvRead Samples.upstream 3 :: Samples.bound_reads) no_error
            {| header := {| resp_version := x05; response_code := kSuccess |};
               body := Samples.bound |}
            [] eq_refl _ eq_refl eq_refl).
  intros E callback. reflexivity.
Defined.

(** C5, as the code has it: when the greeting has been written and an
    [AuthMethodSelect] packet is received without error whose method is not
    [NoAuth], [SendAuthRequest] closes the transport to the upstream and
    calls the callback with a null transport and the error code of the
    read, which is no error. *)
Theorem SendAuthRequest_unsupported_method
    `{Packet AuthMethodList} `{Packet AuthMethodSelectPacket}
    `{Packet RequestHeader} `{Packet ResponseHeader} `{Packet Address}
    endpoint transport ec_w sent script pre ec packet script' :
  failed ec_w = false ->
  delivers (P := AuthMethodSelectPacket)
    transport script pre ec packet script' ->
  failed ec = false ->
  method packet <> kNoAuth ->
  run (SendAuthRequest endpoint transport) (Transferred ec_w sent :: script)
  = IO (EvWrite transport greeting) :: map IO pre
    ++ [IO (EvClose transport); Called (ec, None)].
Proof.
  intros Hw Hd Hec Hm.
  unfold SendAuthRequest, StartWriteTo. cbn [run]. rewrite Hw.
  cbn [run]. rewrite Hd, Hec. cbn [orb].
  destruct (Byte.eqb (method packet) kNoAuth) eqn:Em.
  - apply byte_dec_bl in Em. contradiction.
  - reflexivity.
Qed.

(** The next hop answers [05 FF] to the greeting. *)
Lemma SendAuthRequest_unsupported_method_witness :
  run (SendAuthRequest Samples.target Samples.upstream)
      [Samples.wire []; Samples.wire [x05; xff]]
  = [IO (EvWrite Samples.upstream [x05; x01; x00]);
     IO (EvRead Samples.upstream 2);
     IO (EvClose Samples.upstream);
     Called (no_error, None)]
  /\ failed no_error = false.
Proof.
  split; [|reflexivity].
  refine (SendAuthRequest_unsupported_method
            Samples.target Samples.upstream no_error []
            [Samples.wire [x05; xff]] [EvRead Samples.upstream 2] no_error
            {| ams_version := x05; method := kNoAcceptable |}
            [] eq_refl _ eq_refl _).
  - intros E callback. reflexivity.
  - discriminate.
Defined.

(** ** The direct upstream *)

(** C2, as the code has it: for an [Address] whose type is none of IPv4,
    DomainName and IPv6, [DirectTcpUpstreamFactory::StartRequest] calls the
    callback once, with a null transport and the empty error code
    [ec_type()], which is no error and not [AddressTypeNotSupported]. *)
Theorem StartRequest_unknown_address_type address script :
  type address <> kIPv4 ->
  type address <> kDomainName ->
  type address <> kIPv6 ->
  run (Direct.StartRequest address) script = [Called (no_error, None)]
  /\ failed no_error = false
  /\ no_error <> make_error_code kAddressTypeNotSupported.
Proof.
  intros H4 Hd H6. split; [|split; [reflexivity|discriminate]].
  unfold Direct.StartRequest. cbn [run].
  destruct (Byte.eqb (type address) kDomainName) eqn:Ed;
    [apply byte_dec_bl in Ed; contradiction|].
  destruct (Byte.eqb (type address) kIPv4) eqn:E4;
    [apply byte_dec_bl in E4; contradiction|].
  destruct (Byte.eqb (type address) kIPv6) eqn:E6;
    [apply byte_dec_bl in E6; contradiction|].
  reflexivity.
Qed.

(** The address that [FromAsioEndpoint] makes of an invalid endpoint, of
    type 0xff. *)
Lemma StartRequest_unknown_address_type_witness :
  run (Direct.StartRequest
         (FromAsioEndpoint {| ep_address := address_none; ep_port := 0 |})) []
  = [Called (no_error, None)]
  /\ failed no_error = false
  /\ no_error <> make_error_code kAddressTypeNotSupported.
Proof.
  apply (StartRequest_unknown_address_type
           (FromAsioEndpoint {| ep_address := address_none; ep_port := 0 |})
           []);
    discriminate.
Defined.

(** ** The TCP transport *)

Section TcpTransport.
Import Tcp.

Import TcpTryConnect.


Lemma set_option_Returned os o s s' :
  set_option os o s = Returned s' ->
  is_open s' = true /\ options s' = o :: options s.
Proof.
  unfold set_option. destruct (is_open s); cbn; [|discriminate].
  destruct (failed os); [discriminate|].
  intros [= <-]. split; reflexivity.
Qed.

(** Boost.Asio's [connect] ends without error exactly when some endpoint
    can be connected, and then on the first such, with the socket open. *)
Lemma connect_first_connectable world s iter ec0 s' ec rest :
  connect world s iter ec0 = (s', ec, rest) ->
  (failed ec = false <->
   Exists (fun e => failed (connect_ec (world e)) = false) iter) /\
  (failed ec = false ->
   exists before e after,
     iter = before ++ e :: after /\ rest = e :: after /\
     Forall (fun e => failed (connect_ec (world e)) = true) before /\
     ec = connect_ec (world e) /\
     s' = {| is_open := true; options := [] |}) /\
  (failed ec = true -> rest = []).
Proof.
  revert s ec0. induction iter as [|e iter IH]; intros s ec0; cbn [connect].
  - intros [= <- <- <-]. split; [|split].
    + split; [|intros Hex; inversion Hex].
      destruct (failed ec0) eqn:E0; [congruence|discriminate].
    + destruct (failed ec0) eqn:E0; [congruence|discriminate].
    + reflexivity.
  - destruct (failed (connect_ec (world e))) eqn:Ee.
    + intros Hc. destruct (IH _ _ Hc) as (Hiff & Hfirst & Hnone).
      split; [|split; [|exact Hnone]].
      * rewrite Hiff. split; [intros Hex; right; exact Hex|].
        intros Hex. inversion Hex; subst; [congruence|assumption].
      * intros Hok.
        destruct (Hfirst Hok) as (before & e' & after & -> & -> & Hb & He & Hs).
        exists (e :: before), e', after.
        repeat split; auto.
    + intros [= <- <- <-]. split; [|split; [|congruence]].
      * split; [intros _; left; exact Ee|intros _; exact Ee].
      * intros _. exists [], e, iter. repeat split; auto.
Qed.

Lemma connect_options world iter s0 ec0 s ec rest :
  options s0 = [] ->
  connect world s0 iter ec0 = (s, ec, rest) -> options s = [].
Proof.
  revert s0 ec0. induction iter as [|e iter IH]; intros s0 ec0 Ho;
    cbn [connect].
  - intros [= <- _ _]. exact Ho.
  - destruct (failed (connect_ec (world e))).
    + apply IH. reflexivity.
    + intros [= <- _ _]. reflexivity.
Qed.



(** C8, as the code has it: whatever the first close met, the transport is
    closed after it, and a second [StartClose] leaves it so, does not throw
    and calls the callback with [bad_descriptor], the error of the
    [shutdown] on a socket that is not open. *)
Theorem StartClose_twice os1 os2 t :
  let closed := fst (StartClose os1 t) in
  is_open (socket_ closed) = false /\
  StartClose os2 closed = (closed, Returned bad_descriptor) /\
  failed bad_descriptor = true.
Proof.
  cbn zeta. destruct t as [[o opts]].
  unfold StartClose. cbn [socket_].
  destruct (failed (shutdown (on_shutdown os1) _)) eqn:E1.
  - cbn. split; [reflexivity|]. split; reflexivity.
  - cbn. split; [reflexivity|]. split; reflexivity.
Qed.

(** C8, as the spec has it, fails: an open transport is closed without
    error, and the second close reports [bad_descriptor] to its callback. *)
Lemma StartClose_second_close_reports_error :
  StartClose Samples.all_fine Samples.open_transport
  = ({| socket_ := {| is_open := false; options := [] |} |},
     Returned no_error)
  /\ StartClose Samples.all_fine
       {| socket_ := {| is_open := false; options := [] |} |}
     = ({| socket_ := {| is_open := false; options := [] |} |},
        Returned bad_descriptor)
  /\ failed bad_descriptor = true.
Proof. repeat split. Qed.

End TcpTransport.

(** ** The builder of the TLS transport factory *)

Section SslBuilder.
Import Ssl.

Lemma Builds_used accepts leaves b calls :
  used_ b = true -> Forall (fun r => r = None) (Builds accepts leaves b calls).
Proof.
  revert b. induction calls as [|[io|s] calls IH]; intros b Hu; cbn [Builds].
  - constructor.
  - unfold Build. rewrite Hu. constructor; [reflexivity|]. apply IH, Hu.
  - unfold apply. destruct (ssl_ctx_ b); [|constructor].
    apply IH. exact Hu.
Qed.

Lemma Builds_unused accepts leaves b calls :
  used_ b = false ->
  match Builds accepts leaves b calls with
  | [] => True
  | first :: rest => is_Some first /\ Forall (fun r => r = None) rest
  end.
Proof.
  revert b. induction calls as [|[io|s] calls IH]; intros b Hu; cbn [Builds].
  - exact I.
  - unfold Build. rewrite Hu. split; [eexists; reflexivity|].
    apply Builds_used. reflexivity.
  - unfold apply. destruct (ssl_ctx_ b); [|exact I].
    apply IH. exact Hu.
Qed.

(** C9: of the calls of [Build] on one builder, with any other calls on the
    builder in between, the first returns a factory and every later one
    returns null. *)
Theorem Build_at_most_once accepts leaves calls i r :
  Builds accepts leaves Builder calls !! i = Some r ->
  (i = 0 -> is_Some r) /\ (0 < i -> r = None).
Proof.
  intros Hi.
  pose proof (Builds_unused accepts leaves Builder calls eq_refl) as Hb.
  destruct (Builds accepts leaves Builder calls) as [|first rest];
    [discriminate|].
  destruct Hb as [Hfirst Hrest]. destruct i as [|i]; cbn in Hi.
  - injection Hi as <-. split; [intros _; exact Hfirst|lia].
  - split; [discriminate|]. intros _.
    rewrite Forall_lookup in Hrest. exact (Hrest i r Hi).
Qed.

(** A certificate is loaded, the factory is built, and [Build] is called
    again. *)
Lemma Build_at_most_once_witness :
  (1 = 0 -> is_Some (@None SslTransportFactoryImpl)) /\
  (0 < 1 -> @None SslTransportFactoryImpl = None).
Proof.
  exact (Build_at_most_once (fun _ => true) (fun _ c => c)
           [CallSetter (LoadCert "server.pem"); CallBuild 1; CallBuild 1]
           1 None eq_refl).
Defined.

End SslBuilder.

(** * Further properties *)

(** ** Addresses *)

(** [operator==] of [Address] holds exactly of equal addresses. *)
Theorem Address_eqb_eq a b : Address_eqb a b = true <-> a = b.
Proof.
  unfold Address_eqb. split.
  - intros Heq.
    apply andb_true_iff in Heq as [Heq Hport].
    apply andb_true_iff in Heq as [Htype Hhost].
    apply byte_dec_bl in Htype. apply bool_decide_eq_true in Hhost.
    apply Z.eqb_eq in Hport.
    destruct a, b; cbn in *; congruence.
  - intros ->. rewrite Z.eqb_refl, bool_decide_eq_true_2 by reflexivity.
    rewrite (byte_dec_lb eq_refl). reflexivity.
Qed.

Lemma vec_to_list_eq_rect {A n m} (e : n = m) (v : vec A n) :
  vec_to_list (eq_rect n (vec A) v m e) = vec_to_list v.
Proof. destruct e. reflexivity. Qed.

Lemma copy_host_vec_to_list {n} (v : vec byte n) :
  Direct.copy_host n (vec_to_list v) = Some v.
Proof.
  unfold Direct.copy_host.
  destruct (decide (length (vec_to_list v) = n)) as [e|Hne].
  - f_equal. apply vec_to_list_inj2.
    rewrite vec_to_list_eq_rect. apply vec_to_list_to_vec.
  - destruct Hne. apply length_vec_to_list.
Qed.

Lemma copy_host_Some n h v :
  Direct.copy_host n h = Some v -> vec_to_list v = h /\ length h = n.
Proof.
  unfold Direct.copy_host.
  destruct (decide (length h = n)) as [e|]; [|discriminate].
  intros [= <-]. split; [|exact e].
  rewrite vec_to_list_eq_rect. apply vec_to_list_to_vec.
Qed.

Lemma copy_host_length n h :
  length h = n -> exists v, Direct.copy_host n h = Some v.
Proof.
  intros e. unfold Direct.copy_host.
  destruct (decide (length h = n)); [eexists; reflexivity|contradiction].
Qed.

(** [FromAsioEndpoint] keeps the bytes of the address and the port of a
    valid endpoint and loses the scope id of a version 6 address, nothing
    else: a valid endpoint and another one give the same [Address] exactly
    when they are the same but for the scope id. *)
Theorem FromAsioEndpoint_up_to_scope e1 e2 :
  has_address e1 ->
  (FromAsioEndpoint e1 = FromAsioEndpoint e2
   <-> without_scope e1 = without_scope e2).
Proof.
  unfold has_address, without_scope.
  destruct e1 as [[b1|b1 s1|] p1], e2 as [[b2|b2 s2|] p2];
    unfold FromAsioEndpoint; cbn [ep_address ep_port];
    intros Hv; try contradiction;
    (split; [intros Heq; try discriminate|intros [=]; subst; reflexivity]).
  - injection Heq as Hb ->. apply vec_to_list_inj2 in Hb. congruence.
  - injection Heq as Hb ->. apply vec_to_list_inj2 in Hb. congruence.
Qed.

(** fe80::1 on the interfaces 1 and 2: one [Address] for two endpoints. *)
Lemma FromAsioEndpoint_up_to_scope_witness :
  FromAsioEndpoint (MoreSamples.link_local 1)
  = FromAsioEndpoint (MoreSamples.link_local 2)
  <-> without_scope (MoreSamples.link_local 1)
      = without_scope (MoreSamples.link_local 2).
Proof.
  apply (FromAsioEndpoint_up_to_scope (MoreSamples.link_local 1)
           (MoreSamples.link_local 2)).
  discriminate.
Defined.

(** ** The direct upstream, further *)

(** A request for the address that [FromAsioEndpoint] makes of a valid
    endpoint connects to the endpoint with the same address bytes and the
    same port and the scope id 0, which is the endpoint itself unless it
    has a scoped version 6 address; the callback gets what the connect
    gives, error code and transport, unchanged. *)
Theorem StartRequest_connects_to_endpoint e ec t script :
  has_address e ->
  run (Direct.StartRequest (FromAsioEndpoint e)) (Connected ec t :: script)
  = [IO (EvConnect (without_scope e)); Called (ec, t)].
Proof.
  unfold has_address, without_scope.
  destruct e as [[b|b scope|] p]; cbn [ep_address ep_port];
    intros Hv; [| |contradiction].
  - unfold Direct.StartRequest, FromAsioEndpoint; cbn [ep_address ep_port].
    cbn [type host port]. cbn [run].
    change (Byte.eqb kIPv4 kDomainName) with false.
    change (Byte.eqb kIPv4 kIPv4) with true. cbn iota.
    rewrite copy_host_vec_to_list. reflexivity.
  - unfold Direct.StartRequest, FromAsioEndpoint; cbn [ep_address ep_port].
    cbn [type host port]. cbn [run].
    change (Byte.eqb kIPv6 kDomainName) with false.
    change (Byte.eqb kIPv6 kIPv4) with false.
    change (Byte.eqb kIPv6 kIPv6) with true. cbn iota.
    rewrite copy_host_vec_to_list. reflexivity.
Qed.

(** The address of fe80::1 on the interface 2: the connect goes to fe80::1
    with no scope. *)
Lemma StartRequest_connects_to_endpoint_witness :
  run (Direct.StartRequest (FromAsioEndpoint (MoreSamples.link_local 2)))
      [Connected no_error (Some Samples.upstream)]
  = [IO (EvConnect (MoreSamples.link_local 0));
     Called (no_error, Some Samples.upstream)].
Proof.
  apply (StartRequest_connects_to_endpoint (MoreSamples.link_local 2)
           no_error (Some Samples.upstream) []).
  discriminate.
Defined.

(** A request for a domain name resolves [host] with [port] as the service.
    A failed resolution goes to the callback as it is and nothing is
    connected; of a successful one the first result alone is tried, and the
    callback gets what that connect gives. *)
Theorem StartRequest_domain_name address ec results script :
  type address = kDomainName ->
  run (Direct.StartRequest address) (Resolved ec results :: script)
  = IO (EvResolve (host address) (port address)) ::
    if failed ec then [Called (ec, None)]
    else match results with
         | [] => [IO EvUndefined]
         | first :: _ =>
             IO (EvConnect first) ::
             match script with
             | Connected ec' t :: _ => [Called (ec', t)]
             | _ => []
             end
         end.
Proof.
  intros Ht. unfold Direct.StartRequest. rewrite Ht.
  change (Byte.eqb kDomainName kDomainName) with true. cbn [run].
  destruct (failed ec); [reflexivity|].
  destruct results as [|first others]; [reflexivity|]. cbn [run].
  destruct script as [|[| |ec' t] script]; reflexivity.
Qed.

Lemma StartRequest_domain_name_witness :
  run (Direct.StartRequest
         {| type := kDomainName; host := [x61; x2e; x62]; port := 80 |})
      [Resolved no_error [Samples.local_endpoint;
                          {| ep_address := address_none; ep_port := 1 |}];
       Connected no_error (Some Samples.upstream)]
  = [IO (EvResolve [x61; x2e; x62] 80);
     IO (EvConnect Samples.local_endpoint);
     Called (no_error, Some Samples.upstream)].
Proof.
  exact (StartRequest_domain_name
           {| type := kDomainName; host := [x61; x2e; x62]; port := 80 |}
           no_error _ [Connected no_error (Some Samples.upstream)] eq_refl).
Defined.

(** Whatever the address and whatever the world answers, a request never
    reads from, writes to or closes a transport, and starts at most one
    connect; when it starts none, it calls the callback at most once
    itself.  How often the callback is called after a connect is the matter
    of [StartConnect] of the transport factory, which gets the callback as
    its handler. *)
Theorem StartRequest_starts_one_connect address script :
  let trace := run (Direct.StartRequest address) script in
  Forall (fun e => on_transport e = false) (operations trace) /\
  length (List.filter starts_connect (operations trace)) <= 1 /\
  (List.filter starts_connect (operations trace) = [] ->
   length (called trace) <= 1).
Proof.
  assert (Hconnect : forall e script,
            let trace :=
              run (StartConnect e (fun ec transport =>
                                     Call (ec, transport) Stop)) script in
            Forall (fun e => on_transport e = false) (operations trace) /\
            length (List.filter starts_connect (operations trace)) <= 1 /\
            (List.filter starts_connect (operations trace) = [] ->
             length (called trace) <= 1)).
  { intros e [|[| |ec' t] s]; cbn; repeat split; try lia;
      repeat constructor; discriminate. }
  unfold Direct.StartRequest. cbn [run].
  destruct (Byte.eqb (type address) kDomainName).
  { cbn [run].
    destruct script as [|[|ec results|] script];
      try (cbn; repeat split; try lia; repeat constructor; fail).
    destruct (failed ec);
      [cbn; repeat split; try lia; repeat constructor|].
    destruct results as [|first others];
      [cbn; repeat split; try lia; repeat constructor|].
    destruct (Hconnect first script) as (Ht & Hc & Hn).
    cbn [run operations called List.filter starts_connect on_transport].
    split; [constructor; [reflexivity|exact Ht]|].
    split; [exact Hc|exact Hn]. }
  destruct (Byte.eqb (type address) kIPv4).
  { destruct (Direct.copy_host 4 (host address)) as [v|];
      [apply Hconnect|cbn; repeat split; try lia; repeat constructor]. }
  destruct (Byte.eqb (type address) kIPv6).
  { destruct (Direct.copy_host 16 (host address)) as [v|];
      [apply Hconnect|cbn; repeat split; try lia; repeat constructor]. }
  cbn; repeat split; try lia; repeat constructor.
Qed.

(** For an address that keeps the invariant of the data model the request
    stays within what C++ defines, save for a resolver that reports success
    with no result. *)
Theorem StartRequest_defined address script :
  host_matches_type address ->
  In EvUndefined (operations (run (Direct.StartRequest address) script)) ->
  type address = kDomainName /\
  exists ec script', script = Resolved ec [] :: script' /\ failed ec = false.
Proof.
  intros (H4 & H6 & _). unfold Direct.StartRequest. cbn [run].
  destruct (Byte.eqb (type address) kDomainName) eqn:Ed.
  { apply byte_dec_bl in Ed. cbn [run].
    destruct script as [|[|ec results|] script]; cbn;
      try (intros [|[]]; discriminate).
    destruct (failed ec) eqn:Ef; cbn; [intros [|[]]; discriminate|].
    destruct results as [|first others].
    - intros _. split; [exact Ed|]. eexists _, _. split; [reflexivity|exact Ef].
    - cbn [run operations].
      destruct script as [|[| |ec' t] script]; cbn;
        intros [|[|[]]]; discriminate. }
  destruct (Byte.eqb (type address) kIPv4) eqn:E4.
  { apply byte_dec_bl in E4.
    destruct (copy_host_length 4 (host address) (H4 E4)) as [v ->].
    destruct script as [|[| |ec' t] script]; cbn;
      intros [|[]]; discriminate. }
  destruct (Byte.eqb (type address) kIPv6) eqn:E6.
  { apply byte_dec_bl in E6.
    destruct (copy_host_length 16 (host address) (H6 E6)) as [v ->].
    destruct script as [|[| |ec' t] script]; cbn;
      intros [|[]]; discriminate. }
  cbn. intros [].
Qed.

Lemma StartRequest_defined_witness :
  kDomainName = kDomainName /\
  exists ec script',
    [Resolved no_error []] = Resolved ec [] :: script' /\ failed ec = false.
Proof.
  apply (StartRequest_defined
           {| type := kDomainName; host := [x61; x2e; x62]; port := 80 |}
           [Resolved no_error []]).
  - repeat split; cbn; try discriminate; lia.
  - cbn. right. left. reflexivity.
Defined.

(** ** The SOCKS upstream, further *)

(** When the request cannot be written, or the response cannot be read,
    [SendSocksRequest] closes the transport to the upstream and calls the
    callback with the error of the transport and a null transport; after a
    failed write nothing is read, and after a failed read the response code
    of the packet plays no part. *)
Theorem SendSocksRequest_transport_error
    `{Packet RequestHeader} `{Packet ResponseHeader} `{Packet Address}
    endpoint transport ec_w sent script :
  (failed ec_w = true ->
   run (SendSocksRequest endpoint transport) (Transferred ec_w sent :: script)
   = [IO (EvWrite transport (request_to endpoint));
      IO (EvClose transport); Called (ec_w, None)])
  /\
  (failed ec_w = false ->
   forall pre ec (packet : ResponsePacket) script',
     delivers (P := ResponsePacket) transport script pre ec packet script' ->
     failed ec = true ->
     run (SendSocksRequest endpoint transport)
         (Transferred ec_w sent :: script)
     = IO (EvWrite transport (request_to endpoint)) :: map IO pre
       ++ [IO (EvClose transport); Called (ec, None)]).
Proof.
  split.
  - intros Hw. unfold SendSocksRequest, StartWriteTo. cbn [run].
    rewrite Hw. reflexivity.
  - intros Hw pre ec packet script' Hd Hec.
    unfold SendSocksRequest, StartWriteTo. cbn [run]. rewrite Hw.
    cbn [run]. rewrite Hd, Hec. reflexivity.
Qed.

(** The stream ends while the request is written; the stream ends in the
    middle of the response. *)
Lemma SendSocksRequest_transport_error_witness :
  run (SendSocksRequest Samples.target Samples.upstream) [Transferred eof []]
  = [IO (EvWrite Samples.upstream
           [x05; x01; x00; x01; x7f; x00; x00; x01; x00; x07]);
     IO (EvClose Samples.upstream); Called (eof, None)]
  /\
  run (SendSocksRequest Samples.target Samples.upstream)
      [Samples.wire []; Samples.wire [x05; x04; x00]; Transferred eof []]
  = [IO (EvWrite Samples.upstream
           [x05; x01; x00; x01; x7f; x00; x00; x01; x00; x07]);
     IO (EvRead Samples.upstream 3); IO (EvRead Samples.upstream 1);
     IO (EvClose Samples.upstream); Called (eof, None)].
Proof.
  split.
  - exact (proj1 (SendSocksRequest_transport_error
                    Samples.target Samples.upstream eof [] []) eq_refl).
  - refine (proj2 (SendSocksRequest_transport_error
                     Samples.target Samples.upstream no_error []
                     [Samples.wire [x05; x04; x00]; Transferred eof []])
              eq_refl
              [EvRead Samples.upstream 3; EvRead Samples.upstream 1]
              eof New [] _ eq_refl).
    intros E callback. reflexivity.
Defined.

(** The same of [SendAuthRequest]: when the greeting cannot be written or
    the answer cannot be read, the transport is closed and the callback gets
    the error of the transport and a null transport; the request is never
    sent. *)
Theorem SendAuthRequest_transport_error
    `{Packet AuthMethodList} `{Packet AuthMethodSelectPacket}
    `{Packet RequestHeader} `{Packet ResponseHeader} `{Packet Address}
    endpoint transport ec_w sent script :
  (failed ec_w = true ->
   run (SendAuthRequest endpoint transport) (Transferred ec_w sent :: script)
   = [IO (EvWrite transport greeting);
      IO (EvClose transport); Called (ec_w, None)])
  /\
  (failed ec_w = false ->
   forall pre ec packet script',
     delivers (P := AuthMethodSelectPacket)
       transport script pre ec packet script' ->
     failed ec = true ->
     run (SendAuthRequest endpoint transport)
         (Transferred ec_w sent :: script)
     = IO (EvWrite transport greeting) :: map IO pre
       ++ [IO (EvClose transport); Called (ec, None)]).
Proof.
  split.
  - intros Hw. unfold SendAuthRequest, StartWriteTo. cbn [run].
    rewrite Hw. reflexivity.
  - intros Hw pre ec packet script' Hd Hec.
    unfold SendAuthRequest, StartWriteTo. cbn [run]. rewrite Hw.
    cbn [run]. rewrite Hd, Hec. reflexivity.
Qed.

Lemma SendAuthRequest_transport_error_witness :
  run (SendAuthRequest Samples.target Samples.upstream) [Transferred eof []]
  = [IO (EvWrite Samples.upstream [x05; x01; x00]);
     IO (EvClose Samples.upstream); Called (eof, None)]
  /\
  run (SendAuthRequest Samples.target Samples.upstream)
      [Samples.wire []; Transferred eof [x05]]
  = [IO (EvWrite Samples.upstream [x05; x01; x00]);
     IO (EvRead Samples.upstream 2);
     IO (EvClose Samples.upstream); Called (eof, None)].
Proof.
  split.
  - exact (proj1 (SendAuthRequest_transport_error
                    Samples.target Samples.upstream eof [] []) eq_refl).
  - refine (proj2 (SendAuthRequest_transport_error
                     Samples.target Samples.upstream no_error []
                     [Transferred eof [x05]])
              eq_refl [EvRead Samples.upstream 2] eof New [] _ eq_refl).
    intros E callback. reflexivity.
Defined.

(** When the next hop picks [NoAuth], [SendAuthRequest] goes on as
    [SendSocksRequest] on the same transport, which it leaves open. *)
Theorem SendAuthRequest_then_SendSocksRequest
    `{Packet AuthMethodList} `{Packet AuthMethodSelectPacket}
    `{Packet RequestHeader} `{Packet ResponseHeader} `{Packet Address}
    endpoint transport ec_w sent script pre ec packet script' :
  failed ec_w = false ->
  delivers (P := AuthMethodSelectPacket)
    transport script pre ec packet script' ->
  failed ec = false ->
  method packet = kNoAuth ->
  run (SendAuthRequest endpoint transport) (Transferred ec_w sent :: script)
  = IO (EvWrite transport greeting) :: map IO pre
    ++ run (SendSocksRequest endpoint transport) script'.
Proof.
  intros Hw Hd Hec Hm.
  unfold SendAuthRequest, StartWriteTo. cbn [run]. rewrite Hw.
  cbn [run]. rewrite Hd, Hec, Hm. reflexivity.
Qed.

(** The whole handshake with a next hop that picks [NoAuth] and answers
    [Success]: greeting, answer, request, response, and one call of the
    callback, without error and with the wrapped transport; the transport
    is not closed. *)
Lemma SendAuthRequest_then_SendSocksRequest_witness :
  run (SendAuthRequest Samples.target Samples.upstream)
      (Samples.wire [] :: Samples.wire [x05; x00] :: Samples.wire []
       :: Samples.wire [x05; x00; x00] :: Samples.bound_on_wire)
  = IO (EvWrite Samples.upstream [x05; x01; x00])
    :: map IO [EvRead Samples.upstream 2]
    ++ [IO (EvWrite Samples.upstream
              [x05; x01; x00; x01; x7f; x00; x00; x01; x00; x07]);
        IO (EvRead Samples.upstream 3); IO (EvRead Samples.upstream 1);
        IO (EvRead Samples.upstream 4); IO (EvRead Samples.upstream 2);
        Called (no_error,
                Some (SocksTransportWrapper Samples.upstream Samples.bound))].
Proof.
  refine (SendAuthRequest_then_SendSocksRequest
            Samples.target Samples.upstream no_error []
            [Samples.wire [x05; x00]; Samples.wire [];
             Samples.wire [x05; x00; x00]; Samples.wire [x01];
             Samples.wire [xc0; x00; x02; x09]; Samples.wire [x04; x38]]
            [EvRead Samples.upstream 2] no_error
            {| ams_version := x05; method := kNoAuth |}
            (Samples.wire [] :: Samples.wire [x05; x00; x00]
             :: Samples.bound_on_wire)
            eq_refl _ eq_refl eq_refl).
  intros E callback. reflexivity.
Defined.

(** ** The TCP transport, further *)

Section TcpTransportFurther.
Import Tcp.

(** [StartClose] lets an exception out exactly when the socket is open and
    both the [shutdown] and the [close] fail; in every other case the
    callback is called, and after a failed [shutdown] it gets the error of
    the [shutdown], whatever the [close] did. *)
Theorem StartClose_throws os t :
  ((exists ec, snd (StartClose os t) = Thrown ec) <->
   is_open (socket_ t) = true /\
   failed (on_shutdown os) = true /\ failed (on_close os) = true)
  /\
  (forall ec, snd (StartClose os t) = Returned ec ->
   failed (shutdown (on_shutdown os) (socket_ t)) = true ->
   ec = shutdown (on_shutdown os) (socket_ t)).
Proof.
  destruct t as [[o opts]]. unfold StartClose, shutdown, close, close_ec.
  cbn [socket_ is_open options].
  destruct o; cbn [snd].
  - destruct (failed (on_shutdown os)) eqn:Es; cbn [snd].
    + destruct (failed (on_close os)) eqn:Ec; cbn.
      * split; [split; [auto|eauto]|discriminate].
      * split; [split; [intros [ec [=]]|intros (_ & _ & [=])]|].
        intros ec [= <-] _. reflexivity.
    + cbn. split; [split; [intros [ec [=]]|intros (_ & [=] & _)]|].
      intros ec _ [=].
  - cbn. split; [split; [intros [ec [=]]|intros ([=] & _)]|].
    intros ec [= <-] _. reflexivity.
Qed.

(** [StartConnect] calls the callback with the error code of the connect,
    and with a transport exactly when that is no error; the socket of the
    transport is open. *)
Theorem StartConnect_transport_iff_no_error os e ev :
  StartConnect os e = Returned ev ->
  exists t, ev = ConnectCallback (connected os) t /\
    (is_Some t <-> failed (connected os) = false) /\
    (forall transport, t = Some transport ->
     is_open (socket_ transport) = true).
Proof.
  unfold StartConnect. destruct (failed (connected os)) eqn:Ef.
  - destruct (StartClose _ _) as [t' [r|r]]; cbn; [|discriminate].
    intros [= <-]. exists None. split; [reflexivity|].
    split; [split; [intros [? [=]]|discriminate]|discriminate].
  - destruct (set_option _ _ _) as [s|] eqn:Es; cbn; [|discriminate].
    intros [= <-]. eexists. split; [reflexivity|].
    split; [split; [reflexivity|eauto]|].
    intros transport [= <-]. cbn.
    apply set_option_Returned in Es as [Ho _]. exact Ho.
Qed.

Lemma StartConnect_transport_iff_no_error_witness :
  exists t, ConnectCallback no_error
              (Some {| socket_ := {| is_open := true;
                                     options := [no_delay true] |} |})
            = ConnectCallback no_error t /\
    (is_Some t <-> failed no_error = false) /\
    (forall transport, t = Some transport ->
     is_open (socket_ transport) = true).
Proof.
  exact (StartConnect_transport_iff_no_error
           Samples.connecting Samples.local_endpoint _ eq_refl).
Defined.

(** [DoAccept] calls the callback once for every accepted connection, in
    order, until the callback answers [false]: it stops at the first
    refusal and not before.  The callback gets a transport each time, also
    with an error, and the socket of the transport is open exactly when the
    accept had no error. *)
Theorem DoAccept_until_refused acceptor callback accepts :
  exists n,
    DoAccept acceptor callback accepts
    = map (fun ec => AcceptCallback ec (accept_into acceptor ec NewTransport))
          (take n accepts) /\
    (forall i ec, S i < n -> accepts !! i = Some ec ->
       callback ec (accept_into acceptor ec NewTransport) = true) /\
    (n < length accepts ->
       exists ec, accepts !! (n - 1) = Some ec /\ 0 < n /\
         callback ec (accept_into acceptor ec NewTransport) = false) /\
    (forall ec, is_open (socket_ (accept_into acceptor ec NewTransport))
                = negb (failed ec)).
Proof.
  induction accepts as [|ec accepts (n & Heq & Hbefore & Hlast & Hopen)].
  - exists 0. cbn. repeat split; try (intros; lia).
    intros ec. unfold accept_into. destruct (failed ec); reflexivity.
  - cbn [DoAccept].
    destruct (callback ec (accept_into acceptor ec NewTransport)) eqn:Hc.
    + exists (S n). cbn [take map]. rewrite Heq.
      split; [reflexivity|]. split; [|split; [|exact Hopen]].
      * intros [|i] ec' Hi Hl; cbn in Hl.
        -- injection Hl as <-. exact Hc.
        -- apply (Hbefore i ec'); [lia|exact Hl].
      * cbn [length]. intros Hn.
        destruct Hlast as (ec' & Hl & Hpos & Hr); [lia|].
        exists ec'. split; [|split; [lia|exact Hr]].
        destruct n as [|n]; [lia|].
        replace (S (S n) - 1) with (S n) by lia.
        replace (S n - 1) with n in Hl by lia. exact Hl.
    + exists 1. cbn [take map]. rewrite take_0.
      split; [reflexivity|]. split; [|split; [|exact Hopen]].
      * intros i ec' Hi. lia.
      * intros _. exists ec. cbn. split; [reflexivity|]. split; [lia|exact Hc].
Qed.

End TcpTransportFurther.

(** ** The builder of the TLS transport factory, further *)

Section SslBuilderFurther.
Import Ssl.

Lemma set_ctx_options s c : ctx_options (set s c) = ctx_options c.
Proof. destruct c, s; cbn; try reflexivity. destruct verify; reflexivity. Qed.

Lemma Builds_ctx_options accepts leaves b calls f ctx :
  ssl_ctx_ b = Some ctx ->
  In (Some f) (Builds accepts leaves b calls) ->
  exists ctx', ssl_ctx_of f = Some ctx' /\ ctx_options ctx' = ctx_options ctx.
Proof.
  revert b ctx. induction calls as [|[io|s] calls IH]; intros b ctx Hctx;
    cbn [Builds].
  - intros [].
  - unfold Build. destruct (used_ b) eqn:Hu.
    + intros [[=]|Hin].
      pose proof (Builds_used accepts leaves b calls Hu) as Hall.
      rewrite Forall_forall in Hall. apply Hall in Hin. discriminate.
    + cbn [used_ ssl_ctx_]. intros [[= <-]|Hin].
      * exists ctx. cbn. split; [exact Hctx|reflexivity].
      * pose proof (Builds_used accepts leaves
                      {| ssl_ctx_ := None; used_ := true |} calls eq_refl)
          as Hall.
        rewrite Forall_forall in Hall. apply Hall in Hin. discriminate.
  - unfold apply. rewrite Hctx. intros Hin.
    eapply IH in Hin; [|reflexivity]. destruct Hin as (ctx' & Hf & Ho).
    exists ctx'. split; [exact Hf|]. rewrite Ho.
    destruct (accepts s); [apply set_ctx_options|reflexivity].
Qed.

(** Whatever is called on a builder before, a factory that [Build] returns
    has the context with the options of the constructor: SSLv2, SSLv3 and
    TLSv1 switched off, [single_dh_use] and the default workarounds.  No
    other member function touches them. *)
Theorem Build_keeps_protocol_options accepts leaves calls f :
  In (Some f) (Builds accepts leaves Builder calls) ->
  exists ctx, ssl_ctx_of f = Some ctx /\
    ctx_options ctx = [no_sslv2; no_sslv3; no_tlsv1; single_dh_use;
                       default_workarounds].
Proof.
  intros Hin.
  destruct (Builds_ctx_options accepts leaves Builder calls f _ eq_refl Hin)
    as (ctx & Hf & Ho).
  exists ctx. split; [exact Hf|exact Ho].
Qed.

Lemma Build_keeps_protocol_options_witness :
  exists ctx,
    Some (set (SetVerifyPeer true)
              (default sslv23 (ssl_ctx_ Builder))) = Some ctx /\
    ctx_options ctx = [no_sslv2; no_sslv3; no_tlsv1; single_dh_use;
                       default_workarounds].
Proof.
  refine (Build_keeps_protocol_options (fun _ => true) (fun _ c => c)
            [CallSetter (SetVerifyPeer true); CallBuild 1]
            {| io_service_ptr_ := 1;
               ssl_ctx_of := Some (set (SetVerifyPeer true)
                                     (default sslv23 (ssl_ctx_ Builder))) |}
            _).
  cbn. left. reflexivity.
Defined.

Lemma Builds_after_setters accepts leaves b setters io calls ctx :
  used_ b = false ->
  ssl_ctx_ b = Some ctx ->
  Builds accepts leaves b
    (map CallSetter setters ++ CallBuild io :: calls) !! 0
  = Some (Some {| io_service_ptr_ := io;
                  ssl_ctx_of :=
                    Some (fold_left
                            (fun c s => if accepts s then set s c
                                        else thrown leaves s c)
                            setters ctx) |}).
Proof.
  revert b ctx. induction setters as [|s setters IH]; intros b ctx Hu Hctx.
  - cbn. unfold Build. rewrite Hu, Hctx. reflexivity.
  - cbn [map app Builds fold_left]. unfold apply. rewrite Hctx.
    apply IH; [exact Hu|reflexivity].
Qed.

Lemma set_verify_mode s c :
  verify_mode (set s c)
  = match s with
    | SetVerifyPeer true =>
        [verify_peer; verify_fail_if_no_peer_cert; verify_client_once]
    | SetVerifyPeer false => []
    | _ => verify_mode c
    end.
Proof. destruct c, s; cbn; try reflexivity. destruct verify; reflexivity. Qed.

Lemma fold_verify_mode (accepts : setter -> bool)
    (leaves : setter -> context -> context) (setters : list setter)
    (c : context) (last : option bool) :
  verify_mode c
  = match last with
    | Some true =>
        [verify_peer; verify_fail_if_no_peer_cert; verify_client_once]
    | _ => []
    end ->
  verify_mode (fold_left (fun c s => if accepts s then set s c
                                     else thrown leaves s c)
                         setters c)
  = match fold_left (fun last s =>
                       match s with
                       | SetVerifyPeer verify =>
                           if accepts s then Some verify else last
                       | _ => last
                       end) setters last with
    | Some true =>
        [verify_peer; verify_fail_if_no_peer_cert; verify_client_once]
    | _ => []
    end.
Proof.
  revert c last. induction setters as [|s setters IH]; intros c last Hc;
    cbn [fold_left]; [exact Hc|].
  apply IH. destruct (accepts s) eqn:Ha.
  - rewrite set_verify_mode. destruct s; try exact Hc.
    destruct verify; reflexivity.
  - cbn [thrown verify_mode]. destruct s; exact Hc.
Qed.

(** Peer verification in the built factory follows the last call of
    [SetVerifyPeer] that did not throw, whatever other setters were called
    before or after it and whatever those that threw left behind: the
    three flags [verify_peer], [verify_fail_if_no_peer_cert] and
    [verify_client_once] when it was called with [true], and no
    verification when it was called with [false] or never called. *)
Theorem Build_verify_mode accepts leaves setters io calls :
  exists f ctx,
    Builds accepts leaves Builder
      (map CallSetter setters ++ CallBuild io :: calls)
    !! 0 = Some (Some f) /\
    ssl_ctx_of f = Some ctx /\
    verify_mode ctx
    = match SslVerify.last_verify_peer accepts setters with
      | Some true =>
          [verify_peer; verify_fail_if_no_peer_cert; verify_client_once]
      | _ => []
      end.
Proof.
  eexists _, _. split; [|split].
  - apply Builds_after_setters; reflexivity.
  - reflexivity.
  - apply fold_verify_mode. reflexivity.
Qed.

End SslBuilderFurther.

(** ** [TryConnect] *)

Section TryConnectFacts.
Import Tcp TcpTryConnect.
Import SslTransport(try_handshake, try_set_option).

(** [TcpTransportFactoryImpl::TryConnect] always returns a transport, with
    no option set on its socket; the error code is clear exactly when some
    endpoint of the results could be connected, and then the socket is
    open.  The iterator is left where it was, also when the connection was
    made to a later endpoint. *)
Theorem TryConnect_leaves_iterator world iter :
  let '(transport, error_code, iter') := TryConnect world iter in
  iter' = iter /\
  options (socket_ transport) = [] /\
  (failed error_code = false <->
   Exists (fun e => failed (connect_ec (world e)) = false) iter) /\
  (failed error_code = false -> is_open (socket_ transport) = true).
Proof.
  unfold TryConnect.
  destruct (connect world (socket_ NewTransport) iter no_error)
    as [[s ec] rest] eqn:Hc.
  destruct (connect_first_connectable _ _ _ _ _ _ _ Hc)
    as (Hiff & Hfirst & _).
  split; [reflexivity|]. split; [|split; [exact Hiff|]].
  - cbn [socket_]. eapply connect_options; [|exact Hc]. reflexivity.
  - intros Hok. cbn [socket_].
    destruct (Hfirst Hok) as (_ & _ & _ & _ & _ & _ & _ & ->). reflexivity.
Qed.

(** [SslTransportFactoryImpl::TryConnect] returns a transport exactly when
    the error code is clear, and then one whose socket is open with
    [TCP_NODELAY] set and whose handshake went through.  Unlike the TCP
    one it moves the iterator: to the endpoint it connected to, when the
    connect worked (also when the handshake then failed), and to the end
    when none could be connected. *)
Theorem Ssl_TryConnect_moves_iterator world os iter t ec iter' :
  SslTransport.TryConnect world os iter = Returned (t, ec, iter') ->
  (is_Some t <-> failed ec = false) /\
  (forall transport, t = Some transport ->
     SslTransport.handshaken transport = true /\
     SslTransport.lowest_layer transport
     = {| is_open := true; options := [no_delay true] |}) /\
  ((exists before e after,
      iter = before ++ e :: after /\ iter' = e :: after /\
      Forall (fun e => failed (connect_ec (world e)) = true) before /\
      failed (connect_ec (world e)) = false)
   \/
   (Forall (fun e => failed (connect_ec (world e)) = true) iter /\
    iter' = [] /\ t = None)).
Proof.
  unfold SslTransport.TryConnect.
  destruct (connect world _ iter no_error) as [[s ec1] rest] eqn:Hc.
  destruct (connect_first_connectable _ _ _ _ _ _ _ Hc)
    as (Hiff & Hfirst & Hnone).
  destruct (failed ec1) eqn:E1; cbn [negb].
  - cbn. rewrite E1. intros [= <- <- <-].
    split; [|split; [discriminate|]].
    + rewrite E1. split; [intros [? [=]]|discriminate].
    + right. split; [|split; [apply Hnone; reflexivity|reflexivity]].
      apply Forall_forall. intros e He.
      destruct (failed (connect_ec (world e))) eqn:Ee; [reflexivity|].
      assert (Hex : Exists (fun e => failed (connect_ec (world e)) = false)
                           iter)
        by (apply Exists_exists; eauto).
      apply Hiff in Hex. discriminate.
  - destruct (Hfirst eq_refl) as (before & e & after & Hi & Hr & Hb & He & Hs).
    cbn [SslTransport.lowest_layer].
    destruct (set_option _ _ s) as [s2|] eqn:Eo; cbn; [|discriminate].
    apply set_option_Returned in Eo as [Hopen Hopts].
    destruct (failed (try_handshake os)) eqn:Eh; cbn.
    + intros [= <- <- <-]. split; [|split; [discriminate|]].
      * rewrite Eh. split; [intros [? [=]]|discriminate].
      * left. exists before, e, after. repeat split; auto. congruence.
    + intros [= <- <- <-]. split; [|split].
      * rewrite Eh. split; [reflexivity|eauto].
      * intros transport [= <-]. cbn. split; [reflexivity|].
        destruct s2 as [o2 opts2]. cbn in *. subst. reflexivity.
      * left. exists before, e, after. repeat split; auto. congruence.
Qed.
End TryConnectFacts.

(** ** The TLS transport factory *)

Section SslTransportFacts.
Import Tcp SslTransport.

(** Endpoint 1 refuses the connection, endpoint 2 takes it. *)
Lemma Ssl_TryConnect_moves_iterator_witness :
  (is_Some (Some {| lowest_layer := {| is_open := true;
                                       options := [no_delay true] |};
                    handshaken := true; shutting_down := false |})
   <-> failed no_error = false) /\
  (forall transport,
     Some {| lowest_layer := {| is_open := true;
                                options := [no_delay true] |};
             handshaken := true; shutting_down := false |} = Some transport ->
     handshaken transport = true /\
     lowest_layer transport
     = {| is_open := true; options := [no_delay true] |}) /\
  ((exists before e after,
      [MoreSamples.second_endpoint; Samples.local_endpoint]
      = before ++ e :: after /\
      [Samples.local_endpoint] = e :: after /\
      Forall (fun e => failed (TcpTryConnect.connect_ec
                                 (MoreSamples.only_local e)) = true) before /\
      failed (TcpTryConnect.connect_ec (MoreSamples.only_local e)) = false)
   \/
   (Forall (fun e => failed (TcpTryConnect.connect_ec
                               (MoreSamples.only_local e)) = true)
           [MoreSamples.second_endpoint; Samples.local_endpoint] /\
    [Samples.local_endpoint] = [] /\
    Some {| lowest_layer := {| is_open := true;
                               options := [no_delay true] |};
            handshaken := true; shutting_down := false |} = None)).
Proof.
  exact (Ssl_TryConnect_moves_iterator MoreSamples.only_local
           {| try_set_option := no_error; try_handshake := no_error |}
           [MoreSamples.second_endpoint; Samples.local_endpoint]
           _ _ _ eq_refl).
Defined.

(** When the connect fails, [StartConnect] calls the callback with the
    error of the connect and a null transport and then, the handler not
    returning there, sets the option and starts a handshake all the same:
    when the socket was opened and the handshake completes, whatever its
    outcome, the callback is called a second time. *)
Theorem Ssl_StartConnect_calls_back_twice os e ec2 :
  failed (connected os) = true ->
  opened os = true ->
  failed (on_set_option os) = false ->
  connect_handshake os = Some ec2 ->
  exists second,
    StartConnect os e
    = ([ConnectCallback (connected os) None; ConnectCallback ec2 second],
       Returned ()) /\
    (is_Some second <-> failed ec2 = false).
Proof.
  intros Hc Ho Hs Hh. unfold StartConnect. rewrite Hc, Ho.
  cbn [StartClose lowest_layer]. unfold set_option. cbn [is_open negb].
  rewrite Hs, Hh. destruct (failed ec2) eqn:E2; cbn.
  - exists None. split; [reflexivity|].
    split; [intros [? [=]]|discriminate].
  - eexists. split; [reflexivity|]. split; [reflexivity|eauto].
Qed.

(** The connect is refused and the handshake on the unconnected socket
    fails at once. *)
Lemma Ssl_StartConnect_calls_back_twice_witness :
  exists second,
    StartConnect {| connected := bad_descriptor; opened := true;
                    on_set_option := no_error;
                    connect_handshake := Some eof |}
                 Samples.local_endpoint
    = ([ConnectCallback bad_descriptor None; ConnectCallback eof second],
       Returned ()) /\
    (is_Some second <-> failed eof = false).
Proof.
  exact (Ssl_StartConnect_calls_back_twice
           {| connected := bad_descriptor; opened := true;
              on_set_option := no_error; connect_handshake := Some eof |}
           Samples.local_endpoint eof eq_refl eq_refl eq_refl eq_refl).
Defined.

(** When the connect works, [StartConnect] calls the callback at most
    once, after the handshake, and with a transport exactly when the
    handshake had no error: a transport whose handshake went through and
    whose socket is open with [TCP_NODELAY] set. *)
Theorem Ssl_StartConnect_after_connect os e events ended :
  failed (connected os) = false ->
  StartConnect os e = (events, ended) ->
  length events <= 1 /\
  (forall ec t, In (ConnectCallback ec t) events ->
     connect_handshake os = Some ec /\
     (is_Some t <-> failed ec = false) /\
     (forall transport, t = Some transport ->
        handshaken transport = true /\
        lowest_layer transport
        = {| is_open := true; options := [no_delay true] |})).
Proof.
  intros Hc. unfold StartConnect. rewrite Hc.
  cbn [lowest_layer NewTransport]. unfold set_option. cbn [is_open negb].
  destruct (failed (on_set_option os)).
  { intros [= <- <-]. split; [cbn; lia|intros ec t []]. }
  destruct (connect_handshake os) as [ec2|].
  2:{ intros [= <- <-]. split; [cbn; lia|intros ec t []]. }
  destruct (failed ec2) eqn:E2; intros [= <- <-].
  - split; [cbn; lia|]. intros ec t [[= <- <-]|[]].
    split; [reflexivity|]. split; [|discriminate].
    rewrite E2. split; [intros [? [=]]|discriminate].
  - split; [cbn; lia|]. intros ec t [[= <- <-]|[]].
    split; [reflexivity|]. split.
    + rewrite E2. split; [reflexivity|eauto].
    + intros transport [= <-]. split; reflexivity.
Qed.

Lemma Ssl_StartConnect_after_connect_witness :
  length [ConnectCallback no_error
            (Some {| lowest_layer := {| is_open := true;
                                        options := [no_delay true] |};
                     handshaken := true; shutting_down := false |})] <= 1 /\
  (forall ec t,
     In (ConnectCallback ec t)
        [ConnectCallback no_error
           (Some {| lowest_layer := {| is_open := true;
                                       options := [no_delay true] |};
                    handshaken := true; shutting_down := false |})] ->
     Some no_error = Some ec /\
     (is_Some t <-> failed ec = false) /\
     (forall transport, t = Some transport ->
        handshaken transport = true /\
        lowest_layer transport
        = {| is_open := true; options := [no_delay true] |})).
Proof.
  exact (Ssl_StartConnect_after_connect
           {| connected := no_error; opened := true;
              on_set_option := no_error;
              connect_handshake := Some no_error |}
           Samples.local_endpoint _ _ eq_refl eq_refl).
Defined.



(** The listener waits for the connection at hand: after an accept that
    fails, whatever the callback answers, and after a handshake that never
    completes, no further connection is accepted. *)
Theorem Ssl_DoAccept_stalls acceptor callback before a after :
  failed (accepted a) = true \/ accept_handshake a = None ->
  DoAccept acceptor callback (before ++ a :: after)
  = DoAccept acceptor callback (before ++ [a]).
Proof.
  intros Ha. induction before as [|b before IH]; cbn [app DoAccept].
  - destruct (failed (accepted a)) eqn:Ea; [reflexivity|].
    destruct Ha as [Hf|Hn]; [discriminate|]. rewrite Hn. reflexivity.
  - destruct (failed (accepted b)); [reflexivity|].
    destruct (accept_handshake b) as [ec|]; [|reflexivity].
    destruct (callback ec _); [|reflexivity].
    f_equal. exact IH.
Qed.

(** A client connects and does not start the handshake; a second client
    would connect and complete it. *)
Lemma Ssl_DoAccept_stalls_witness :
  DoAccept {| is_open := true; options := [] |} (fun _ _ => true)
    [{| accepted := no_error; accept_handshake := None |};
     {| accepted := no_error; accept_handshake := Some no_error |}]
  = [].
Proof.
  exact (Ssl_DoAccept_stalls {| is_open := true; options := [] |}
           (fun _ _ => true) []
           {| accepted := no_error; accept_handshake := None |}
           [{| accepted := no_error; accept_handshake := Some no_error |}]
           (or_intror eq_refl)).
Defined.

(** [StartAccept] of the TLS factory sets [TCP_NODELAY] and [SO_REUSEADDR]
    on the listener before the first accept, as the TCP one does, and runs
    [DoAccept] on that listener. *)
Theorem Ssl_StartAccept_listener_options
    os e callback accepts acceptor events :
  StartAccept os e callback accepts = Returned (acceptor, events) ->
  In (no_delay true) (options acceptor) /\
  In (reuse_address true) (options acceptor) /\
  is_open acceptor = true /\
  events = DoAccept acceptor callback accepts.
Proof.
  unfold StartAccept, new_acceptor.
  destruct (failed (on_listen os)); [discriminate|]. cbn.
  destruct (failed (on_no_delay os)); [discriminate|]. cbn.
  destruct (failed (on_reuse_address os)); [discriminate|]. cbn.
  intros [= <- <-]. cbn. auto.
Qed.

Lemma Ssl_StartAccept_listener_options_witness :
  In (no_delay true)
     [reuse_address true; no_delay true; reuse_address true] /\
  In (reuse_address true)
     [reuse_address true; no_delay true; reuse_address true] /\
  true = true /\
  [AcceptCallback eof None]
  = DoAccept {| is_open := true;
                options := [reuse_address true; no_delay true;
                            reuse_address true] |}
      (fun _ _ => true)
      [{| accepted := no_error; accept_handshake := Some eof |}].
Proof.
  exact (Ssl_StartAccept_listener_options Samples.listening
           Samples.local_endpoint (fun _ _ => true)
           [{| accepted := no_error; accept_handshake := Some eof |}]
           {| is_open := true;
              options := [reuse_address true; no_delay true;
                          reuse_address true] |}
           [AcceptCallback eof None] eq_refl).
Defined.

End SslTransportFacts.

(** ** The SOCKS upstream factory *)

Section SocksFactoryFacts.
Import SocksFactory.
Context `{Packet AuthMethodList} `{Packet AuthMethodSelectPacket}.
Context `{Packet RequestHeader} `{Packet ResponseHeader} `{Packet Address}.
Variable TryConnect :
  list endpoint -> option TransportBase * ec_type * list endpoint.

(** A first request that cannot resolve the upstream, or cannot connect to
    any of the results, calls the callback with that error and a null
    transport and does nothing else; the factory stays uninitialised, so
    that the next request resolves again. *)
Theorem StartRequest_failure_keeps_uninitialised
    self ec_r iter endpoint script :
  is_upstream_endpoint_init_ self = false ->
  failed ec_r = true \/ failed (snd (fst (TryConnect iter))) = true ->
  let ec := if failed ec_r then ec_r else snd (fst (TryConnect iter)) in
  fst (StartRequest TryConnect self (ec_r, iter) endpoint) = self /\
  run (snd (StartRequest TryConnect self (ec_r, iter) endpoint)) script
  = [Called (ec, None)].
Proof.
  intros Hi Hf. unfold StartRequest. rewrite Hi. cbn [negb].
  destruct (failed ec_r) eqn:Er; [split; reflexivity|].
  destruct Hf as [[=]|Hf].
  destruct (TryConnect iter) as [[t ec] iter']. cbn in Hf |- *.
  rewrite Hf. split; reflexivity.
Qed.

(** The first request that resolves and connects remembers the endpoint
    that the iterator is at when [TryConnect] returns, and goes on with
    [SendAuthRequest] on the transport that [TryConnect] returned, without
    another connect. *)
Theorem StartRequest_first_success
    self ec_r iter endpoint transport ec first rest :
  is_upstream_endpoint_init_ self = false ->
  failed ec_r = false ->
  TryConnect iter = (Some transport, ec, first :: rest) ->
  failed ec = false ->
  let self' := fst (StartRequest TryConnect self (ec_r, iter) endpoint) in
  is_upstream_endpoint_init_ self' = true /\
  upstream_endpoint_ self' = first /\
  snd (StartRequest TryConnect self (ec_r, iter) endpoint)
  = SendAuthRequest endpoint transport.
Proof.
  intros Hi Hr Ht He. unfold StartRequest. rewrite Hi. cbn [negb].
  rewrite Hr, Ht, He. cbn. repeat split.
Qed.

Lemma after_requests_initialised self requests :
  is_upstream_endpoint_init_ self = true ->
  after_requests TryConnect self requests = self.
Proof.
  intros Hi. induction requests as [|[resolved endpoint] requests IH];
    cbn [after_requests]; [reflexivity|].
  unfold StartRequest at 1. rewrite Hi. cbn [negb fst]. exact IH.
Qed.

(** Once the endpoint of the upstream is remembered no request, whatever
    the resolver would answer by then, changes it; every later request asks
    [StartConnect] of the transport factory for a connection to it, and the
    handler it gives, each time the factory completes the connect, hands an
    error with a null transport to the callback, or without error goes on
    with [SendAuthRequest] on the transport it is given; a null transport
    without error it does not expect. *)
Theorem StartRequest_remembers_endpoint
    self requests resolved endpoint :
  is_upstream_endpoint_init_ self = true ->
  let self' := after_requests TryConnect self requests in
  self' = self /\
  exists handler,
    snd (StartRequest TryConnect self' resolved endpoint)
    = Log Debug "try connecting to upstream"
        (StartConnect (upstream_endpoint_ self) handler) /\
    forall ec t script,
      run (handler ec t) script
      = if failed ec then [Called (ec, None)]
        else match t with
             | Some transport => run (SendAuthRequest endpoint transport) script
             | None => [IO EvUndefined]
             end.
Proof.
  intros Hi. cbn zeta. rewrite (after_requests_initialised _ _ Hi).
  split; [reflexivity|].
  unfold StartRequest. rewrite Hi. cbn [negb snd].
  eexists. split; [reflexivity|].
  intros ec t script. cbn beta.
  destruct (failed ec); [reflexivity|]. destruct t; reflexivity.
Qed.

End SocksFactoryFacts.

(** The resolver fails with [not_found]. *)
Lemma StartRequest_failure_keeps_uninitialised_witness :
  fst (SocksFactory.StartRequest MoreSamples.connects_first
         MoreSamples.new_factory (TcpTryConnect.not_found, [])
         Samples.target)
  = MoreSamples.new_factory /\
  run (snd (SocksFactory.StartRequest MoreSamples.connects_first
              MoreSamples.new_factory (TcpTryConnect.not_found, [])
              Samples.target)) []
  = [Called (TcpTryConnect.not_found, None)].
Proof.
  exact (StartRequest_failure_keeps_uninitialised
           MoreSamples.connects_first MoreSamples.new_factory
           TcpTryConnect.not_found [] Samples.target [] eq_refl
           (or_introl eq_refl)).
Defined.

(** The upstream resolves to two endpoints and the first one connects. *)
Lemma StartRequest_first_success_witness :
  SocksFactory.is_upstream_endpoint_init_
    (fst (SocksFactory.StartRequest MoreSamples.connects_first
            MoreSamples.new_factory
            (no_error, [Samples.local_endpoint;
                        MoreSamples.second_endpoint])
            Samples.target)) = true /\
  SocksFactory.upstream_endpoint_
    (fst (SocksFactory.StartRequest MoreSamples.connects_first
            MoreSamples.new_factory
            (no_error, [Samples.local_endpoint;
                        MoreSamples.second_endpoint])
            Samples.target)) = Samples.local_endpoint /\
  snd (SocksFactory.StartRequest MoreSamples.connects_first
         MoreSamples.new_factory
         (no_error, [Samples.local_endpoint; MoreSamples.second_endpoint])
         Samples.target)
  = SendAuthRequest Samples.target Samples.upstream.
Proof.
  exact (StartRequest_first_success
           MoreSamples.connects_first MoreSamples.new_factory no_error
           [Samples.local_endpoint; MoreSamples.second_endpoint]
           Samples.target Samples.upstream no_error
           Samples.local_endpoint [MoreSamples.second_endpoint]
           eq_refl eq_refl eq_refl eq_refl).
Defined.

(** A factory that remembered 10.0.0.2:40000 gets a request while the
    resolver has started to fail; the request still asks for a connection
    to 10.0.0.2:40000, and handles each completion of it. *)
Lemma StartRequest_remembers_endpoint_witness :
  SocksFactory.after_requests MoreSamples.connects_first
    MoreSamples.ready_factory
    [((TcpTryConnect.not_found, []), Samples.target)]
  = MoreSamples.ready_factory /\
  exists handler,
    snd (SocksFactory.StartRequest MoreSamples.connects_first
           (SocksFactory.after_requests MoreSamples.connects_first
              MoreSamples.ready_factory
              [((TcpTryConnect.not_found, []), Samples.target)])
           (TcpTryConnect.not_found, []) Samples.target)
    = Log Debug "try connecting to upstream"
        (StartConnect Samples.local_endpoint handler) /\
    forall ec t script,
      run (handler ec t) script
      = if failed ec then [Called (ec, None)]
        else match t with
             | Some transport =>
                 run (SendAuthRequest Samples.target transport) script
             | None => [IO EvUndefined]
             end.
Proof.
  exact (StartRequest_remembers_endpoint
           MoreSamples.connects_first MoreSamples.ready_factory
           [((TcpTryConnect.not_found, []), Samples.target)]
           (TcpTryConnect.not_found, []) Samples.target eq_refl).
Defined.
